(** * Verification of [utils/util_mesh.py] (building_tools)

    A shallow embedding of the mesh utilities: edge classification,
    face squaring, face lookup by vertices, quad subdivision and the
    grid splitter.

    Numbers.  Python floats are idealised as real numbers ([R]): every
    finite double is a real, arithmetic is exact (the rounding of the
    single precision in which the kernel stores and transforms
    coordinates is not modelled), and [round(v, n)] is
    rounding of [v * 10^n] to the nearest integer, ties to even,
    divided by [10^n].  Truthiness of a float ([if normal.z:]) is the
    test [<> 0].

    Mesh.  BMesh elements are handles (natural numbers) into a mesh
    store; attribute reads ([v.co], [e.verts], [face.edges], ...) are
    lookups in the current store, so that a handle held across a
    mutation observes the mutated mesh, as in the source. *)

From Stdlib Require Import Reals Lra List Bool Arith ZArith Lia.
From Stdlib Require Import Zfloor Permutation.
Import ListNotations.

Open Scope R_scope.

(** ** Python numerics *)

Module Py.

(** [bool(v)] for a float. *)
Definition truthy (v : R) : bool :=
  if Req_dec_T v 0 then false else true.

Definition Req_bool (a b : R) : bool :=
  if Req_dec_T a b then true else false.

Definition Rlt_bool (a b : R) : bool :=
  if Rlt_dec a b then true else false.

(** Nearest integer, ties to even. *)
Definition round_half_even (r : R) : Z :=
  let f := Zfloor r in
  let d := r - IZR f in
  if Rlt_dec d (1 / 2) then f
  else if Rlt_dec (1 / 2) d then (f + 1)%Z
  else if Z.even f then f else (f + 1)%Z.

(** [round(val, ndigits)]. *)
Definition round (val : R) (ndigits : nat) : R :=
  IZR (round_half_even (val * 10 ^ ndigits)) / 10 ^ ndigits.

(** [len(set(l))] for a list of floats. *)
Definition set (l : list R) : list R := nodup Req_dec_T l.

(** [max(l)] and [min(l)]; [None] stands for the [ValueError] raised
    on an empty sequence. *)
Definition max (l : list R) : option R :=
  match l with
  | [] => None
  | a :: t => Some (fold_left Rmax t a)
  end.

Definition min (l : list R) : option R :=
  match l with
  | [] => None
  | a :: t => Some (fold_left Rmin t a)
  end.

(** [l[-1]]; [None] stands for [IndexError]. *)
Fixpoint last_item {A} (l : list A) : option A :=
  match l with
  | [] => None
  | [a] => Some a
  | _ :: t => last_item t
  end.

End Py.

(** ** mathutils.Vector *)

Record Vector := mkVector { vx : R; vy : R; vz : R }.

Definition vadd (a b : Vector) : Vector :=
  mkVector (vx a + vx b) (vy a + vy b) (vz a + vz b).

Definition vsub (a b : Vector) : Vector :=
  mkVector (vx a - vx b) (vy a - vy b) (vz a - vz b).

Definition vneg (a : Vector) : Vector :=
  mkVector (- vx a) (- vy a) (- vz a).

Definition vdiv (a : Vector) (k : R) : Vector :=
  mkVector (vx a / k) (vy a / k) (vz a / k).

(** Component-wise product, the action of a diagonal scale matrix. *)
Definition vscale (s a : Vector) : Vector :=
  mkVector (vx s * vx a) (vy s * vy a) (vz s * vz a).

Definition vcross (a b : Vector) : Vector :=
  mkVector (vy a * vz b - vz a * vy b)
           (vz a * vx b - vx a * vz b)
           (vx a * vy b - vy a * vx b).

Definition vlength (a : Vector) : R :=
  sqrt (vx a * vx a + vy a * vy a + vz a * vz a).

Definition Vector_eq_dec (a b : Vector) : {a = b} + {a <> b}.
Proof.
  destruct a as [a1 a2 a3], b as [b1 b2 b3].
  destruct (Req_dec_T a1 b1); [| right; congruence].
  destruct (Req_dec_T a2 b2); [| right; congruence].
  destruct (Req_dec_T a3 b3); [| right; congruence].
  left; congruence.
Defined.

Definition Vector_eqb (a b : Vector) : bool :=
  if Vector_eq_dec a b then true else false.

(** ** The mesh store *)

Definition vid := nat.   (* BMVert handle *)
Definition eid := nat.   (* BMEdge handle *)
Definition fid := nat.   (* BMFace handle *)

Record BMesh := mkBMesh {
  bm_verts : list vid;               (* bm.verts *)
  bm_edges : list eid;               (* bm.edges *)
  bm_faces : list fid;               (* bm.faces *)
  vert_co : vid -> Vector;           (* v.co *)
  edge_verts : eid -> vid * vid;     (* e.verts, always two *)
  face_verts : fid -> list vid;      (* face.verts *)
  face_edges : fid -> list eid;      (* face.edges *)
  face_normal : fid -> Vector;       (* face.normal *)
  face_select : fid -> bool          (* face.select *)
}.

(** [e.verts] as the sequence the comprehensions iterate over. *)
Definition edge_verts_list (bm : BMesh) (e : eid) : list vid :=
  [fst (edge_verts bm e); snd (edge_verts bm e)].

(** [e.calc_length()]. *)
Definition calc_length (bm : BMesh) (e : eid) : R :=
  vlength (vsub (vert_co bm (fst (edge_verts bm e)))
                (vert_co bm (snd (edge_verts bm e)))).

(** [face.calc_center_median()]: mean of the face's vertex positions. *)
Definition calc_center_median (bm : BMesh) (f : fid) : Vector :=
  vdiv (fold_left vadd (map (vert_co bm) (face_verts bm f)) (mkVector 0 0 0))
       (INR (length (face_verts bm f))).

(** [v.link_edges]: the edges of the mesh that use [v]. *)
Definition link_edges (bm : BMesh) (v : vid) : list eid :=
  filter (fun e => (fst (edge_verts bm e) =? v)%nat || (snd (edge_verts bm e) =? v)%nat)
         (bm_edges bm).

Definition set_vert_co (bm : BMesh) (v : vid) (c : Vector) : BMesh :=
  mkBMesh (bm_verts bm) (bm_edges bm) (bm_faces bm)
          (fun w => if (w =? v)%nat then c else vert_co bm w)
          (edge_verts bm) (face_verts bm) (face_edges bm)
          (face_normal bm) (face_select bm).

(** [face.select = val]. *)
Definition set_face_select (bm : BMesh) (f : fid) (val : bool) : BMesh :=
  mkBMesh (bm_verts bm) (bm_edges bm) (bm_faces bm) (vert_co bm)
          (edge_verts bm) (face_verts bm) (face_edges bm) (face_normal bm)
          (fun g => if (g =? f)%nat then val else face_select bm g).

(** ** Edge classification *)

(** [len(set([round(v.co.<axis>, nd) for v in e.verts])) == 1] *)
Definition coords_collapse (bm : BMesh) (axis : Vector -> R) (nd : nat) (e : eid) : bool :=
  (length (Py.set (map (fun v => Py.round (axis (vert_co bm v)) nd)
                       (edge_verts_list bm e))) =? 1)%nat.

(** The loop of [filter_vertical_edges]: [res] is the accumulator. *)
Definition filter_vertical_edges (bm : BMesh) (edges : list eid) (normal : Vector) : list eid :=
  fold_left
    (fun res e =>
       let s :=
         if Py.truthy (vz normal) then
           Py.set (map (fun v => Py.round (vx (vert_co bm v)) 4) (edge_verts_list bm e))
         else if Py.truthy (vy normal) then
           Py.set (map (fun v => Py.round (vx (vert_co bm v)) 4) (edge_verts_list bm e))
         else
           Py.set (map (fun v => Py.round (vy (vert_co bm v)) 4) (edge_verts_list bm e)) in
       if (length s =? 1)%nat then res ++ [e] else res)
    edges [].

Definition filter_horizontal_edges (bm : BMesh) (edges : list eid) (normal : Vector) : list eid :=
  fold_left
    (fun res e =>
       let s :=
         if Py.truthy (vz normal) then
           Py.set (map (fun v => Py.round (vy (vert_co bm v)) 4) (edge_verts_list bm e))
         else if Py.truthy (vy normal) then
           Py.set (map (fun v => Py.round (vz (vert_co bm v)) 4) (edge_verts_list bm e))
         else
           Py.set (map (fun v => Py.round (vz (vert_co bm v)) 4) (edge_verts_list bm e)) in
       if (length s =? 1)%nat then res ++ [e] else res)
    edges [].

(** [calc_edge_orient]: note the [or] of the first test. *)
Definition calc_edge_orient (bm : BMesh) (edge : eid) : Vector :=
  let x_coords := Py.set (map (fun v => Py.round (vx (vert_co bm v)) 1) (edge_verts_list bm edge)) in
  let y_coords := Py.set (map (fun v => Py.round (vy (vert_co bm v)) 1) (edge_verts_list bm edge)) in
  let z_coords := Py.set (map (fun v => Py.round (vz (vert_co bm v)) 1) (edge_verts_list bm edge)) in
  if (length x_coords =? 1)%nat || (length y_coords =? 1)%nat then
    mkVector 0 0 1
  else if (length z_coords =? 1)%nat && (length y_coords =? 1)%nat then
    mkVector 1 0 0
  else if (length z_coords =? 1)%nat && (length x_coords =? 1)%nat then
    mkVector 0 1 0
  else
    mkVector 0 0 0.

(** ** Faces by vertices *)

(** [face_with_verts]: the first face of [bm.faces] passing the length
    test, [default] when none does. *)
Fixpoint face_with_verts_loop (bm : BMesh) (faces : list fid) (verts : list vid)
         (default : option fid) : option fid :=
  match faces with
  | [] => default
  | face :: rest =>
      if (length (nodup Nat.eq_dec (face_verts bm face ++ verts)) =? length verts)%nat
      then Some face
      else face_with_verts_loop bm rest verts default
  end.

Definition face_with_verts (bm : BMesh) (verts : list vid) (default : option fid) : option fid :=
  face_with_verts_loop bm (bm_faces bm) verts default.

(** ** Geometry lists returned by the mesh kernel *)

Inductive BMElem :=
| ElemVert (v : vid)
| ElemEdge (e : eid)
| ElemFace (f : fid).

Inductive ElemType := BMVert | BMEdge | BMFace.

Definition isinstance (x : BMElem) (ty : ElemType) : bool :=
  match x, ty with
  | ElemVert _, BMVert => true
  | ElemEdge _, BMEdge => true
  | ElemFace _, BMFace => true
  | _, _ => false
  end.

Definition filter_geom (geom : list BMElem) (ty : ElemType) : list BMElem :=
  filter (fun x => isinstance x ty) geom.

(** The vertex handles of a geometry list. *)
Definition as_verts (geom : list BMElem) : list vid :=
  flat_map (fun x => match x with ElemVert v => [v] | _ => [] end) geom.

(** The dictionary returned by [bmesh.ops.subdivide_edges]. *)
Record SubdivResult := mkSubdivResult {
  geom_inner : list BMElem;
  geom_split : list BMElem;
  geom : list BMElem
}.

(** The operators of [bmesh.ops] whose implementation lies in the mesh
    kernel: they are an interface of the development. *)
Class BMeshOps := {
  subdivide_edges : BMesh -> list eid -> Z -> BMesh * SubdivResult;
  remove_doubles : BMesh -> list vid -> BMesh
}.

(** [bmesh.ops.scale(bm, vec, space, verts)] with
    [space = Matrix.Translation(t)]: each vertex is moved into the
    space, scaled and moved back, in exact arithmetic. *)
Definition scale_co (vec t co : Vector) : Vector :=
  vsub (vscale vec (vadd co t)) t.

Definition ops_scale (bm : BMesh) (vec t : Vector) (verts : list vid) : BMesh :=
  fold_left (fun m v => set_vert_co m v (scale_co vec t (vert_co m v))) verts bm.

(** [bmesh.ops.translate(bm, vec, verts)]. *)
Definition ops_translate (bm : BMesh) (vec : Vector) (verts : list vid) : BMesh :=
  fold_left (fun m v => set_vert_co m v (vadd (vert_co m v) vec)) verts bm.

(** ** The world: the edit mesh and the trace of operator calls *)

Inductive BMOp :=
| OpSubdivideEdges (edges : list eid) (cuts : Z)
| OpScale (vec space : Vector) (verts : list vid)
| OpRemoveDoubles (verts : list vid)
| OpTranslate (vec : Vector) (verts : list vid)
| OpUpdateEditMesh.

Record World := mkWorld {
  w_bm : BMesh;
  w_log : list BMOp
}.

Inductive PyError :=
| ZeroDivisionError
| ValueError
| IndexError
| UnboundLocalError
| AttributeError
| ReferenceError.

Inductive Result (A : Type) :=
| Ok (a : A)
| Raise (e : PyError).
Arguments Ok {A} a.
Arguments Raise {A} e.

(** State with exceptions; the world reached when the exception was
    raised is kept. *)
Definition M (A : Type) : Type := World -> Result A * World.

Definition ret {A} (a : A) : M A := fun w => (Ok a, w).

Definition bind {A B} (m : M A) (f : A -> M B) : M B :=
  fun w => match m w with
           | (Ok a, w') => f a w'
           | (Raise e, w') => (Raise e, w')
           end.

Definition raise {A} (e : PyError) : M A := fun w => (Raise e, w).

Notation "x <- m ;; k" := (bind m (fun x => k))
  (at level 61, m at next level, right associativity).
Notation "m ;;; k" := (bind m (fun _ => k))
  (at level 61, right associativity).

Definition get_bm : M BMesh := fun w => (Ok (w_bm w), w).

Definition update_bm (f : BMesh -> BMesh) (op : list BMOp) : M unit :=
  fun w => (Ok tt, mkWorld (f (w_bm w)) (w_log w ++ op)).

Definition from_option {A} (e : PyError) (o : option A) : M A :=
  match o with
  | Some a => ret a
  | None => raise e
  end.

(** Float division. *)
Definition py_div (a b : R) : M R :=
  if Req_dec_T b 0 then raise ZeroDivisionError else ret (a / b).

Definition op_scale (vec t : Vector) (verts : list vid) : M unit :=
  update_bm (fun bm => ops_scale bm vec t verts) [OpScale vec t verts].

Definition op_translate (vec : Vector) (verts : list vid) : M unit :=
  update_bm (fun bm => ops_translate bm vec verts) [OpTranslate vec verts].

Definition op_subdivide_edges `{BMeshOps} (edges : list eid) (cuts : Z) : M SubdivResult :=
  fun w => let '(bm', res) := subdivide_edges (w_bm w) edges cuts in
           (Ok res, mkWorld bm' (w_log w ++ [OpSubdivideEdges edges cuts])).

Definition op_remove_doubles `{BMeshOps} (verts : list vid) : M unit :=
  update_bm (fun bm => remove_doubles bm verts) [OpRemoveDoubles verts].

(** [bmesh.update_edit_mesh(me, True)]. *)
Definition update_edit_mesh : M unit := update_bm (fun bm => bm) [OpUpdateEditMesh].

(** ** square_face *)

Definition square_face (face : fid) : M R :=
  bm <- get_bm ;;
  max_length <- from_option ValueError (Py.max (map (calc_length bm) (face_edges bm face))) ;;
  min_length <- from_option ValueError (Py.min (map (calc_length bm) (face_edges bm face))) ;;
  scale_factor <- py_div max_length min_length ;;
  min_edge <- from_option IndexError
    (Py.last_item (filter (fun e => Py.Req_bool (calc_length bm e) min_length)
                          (face_edges bm face))) ;;
  let scale_vec :=
    if Vector_eqb (calc_edge_orient bm min_edge) (mkVector 1 0 0) then
      mkVector scale_factor 1 1
    else if Vector_eqb (calc_edge_orient bm min_edge) (mkVector 0 1 0) then
      mkVector 1 scale_factor 1
    else if Vector_eqb (calc_edge_orient bm min_edge) (mkVector 0 0 1) then
      mkVector 1 1 scale_factor
    else
      mkVector 1 1 1 in
  let fc := calc_center_median bm face in
  op_scale scale_vec (vneg fc) (face_verts bm face) ;;;
  ret scale_factor.

(** ** split_quad *)

(** The body of the loop over the selected faces; [res] is the local
    variable of the same name, unbound ([None]) before the first
    iteration. *)
Definition split_quad_body `{BMeshOps} (vertical : bool) (cuts : Z)
           (face : fid) : M SubdivResult :=
  bm <- get_bm ;;
  if vertical then
    let e := filter_horizontal_edges bm (face_edges bm face) (face_normal bm face) in
    op_subdivide_edges e cuts
  else
    let e := filter_vertical_edges bm (face_edges bm face) (face_normal bm face) in
    op_subdivide_edges e cuts.

Fixpoint split_quad_loop `{BMeshOps} (vertical : bool) (cuts : Z)
         (faces : list fid) (res : option SubdivResult) : M (option SubdivResult) :=
  match faces with
  | [] => ret res
  | face :: rest =>
      r <- split_quad_body vertical cuts face ;;
      split_quad_loop vertical cuts rest (Some r)
  end.

Definition split_quad `{BMeshOps} (vertical : bool) (cuts : Z) : M SubdivResult :=
  bm <- get_bm ;;
  let faces := filter (fun f => face_select bm f) (bm_faces bm) in
  res <- split_quad_loop vertical cuts faces None ;;
  update_edit_mesh ;;;
  from_option UnboundLocalError res.

(** ** split *)

(** [list(s)] for a Python set [s] of mesh elements: the elements of
    the set, each once, in an order that the language leaves open and
    that changes from run to run.  The order is a parameter of the
    development. *)
Class PySets := {
  list_of_set : list nat -> list nat;
  list_of_set_perm : forall l, Permutation (list_of_set l) (nodup Nat.eq_dec l)
}.

(** [list(set(face.edges) - set(other))]. *)
Definition edges_difference `{PySets} (edges other : list eid) : list eid :=
  list_of_set (filter (fun e => negb (existsb (fun o => (o =? e)%nat) other)) edges).

(** The horizontal pass: lines 168 to 182. *)
Definition split_horizontal `{BMeshOps} (face : fid) (median : Vector)
           (shorizontal : R) : M (list vid) :=
  bm <- get_bm ;;
  let horizontal := filter (coords_collapse bm vz 1) (face_edges bm face) in
  sp_res <- op_subdivide_edges horizontal 2 ;;
  let verts := as_verts (filter_geom (geom_inner sp_res) BMVert) in
  let T := vneg median in
  bm <- get_bm ;;
  let sv := vcross (face_normal bm face) (mkVector 0 0 1) in
  let scale_vector :=
    mkVector (if Py.truthy (vx sv) then Rabs (vx sv) * shorizontal else 1)
             (if Py.truthy (vy sv) then Rabs (vy sv) * shorizontal else 1)
             (if Py.truthy (vz sv) then Rabs (vz sv) * shorizontal else 1) in
  op_scale scale_vector T verts ;;;
  ret verts.

(** An attribute read on the value of the variable [face] after the
    merge: [None] has no attribute ([AttributeError]), and the handle of
    a face that the merge removed from the mesh is dead
    ([ReferenceError]). *)
Definition deref_face (bm : BMesh) (face : option fid) : M fid :=
  match face with
  | None => raise AttributeError
  | Some f =>
      if existsb (fun g => (g =? f)%nat) (bm_faces bm) then ret f
      else raise ReferenceError
  end.

(** The vertical pass after its merge: lines 187 to 201.  [verts] is
    the local variable as the horizontal pass left it; it is read only
    when that pass ran. *)
Definition split_after_merge `{BMeshOps} `{PySets} (face : fid) (median : Vector)
           (svertical : R) (do_horizontal : bool) (verts : list vid) : M (list vid) :=
  bm <- get_bm ;;
  face <- deref_face bm
            (if do_horizontal then face_with_verts bm verts None else Some face) ;;
  let other := filter (coords_collapse bm vz 1) (face_edges bm face) in
  let vertical := edges_difference (face_edges bm face) other in
  sp_res <- op_subdivide_edges vertical 2 ;;
  let verts := as_verts (filter_geom (geom_inner sp_res) BMVert) in
  let T := vneg median in
  op_scale (mkVector 1 1 svertical) T verts ;;;
  ret verts.

(** The vertical pass: lines 185 to 201. *)
Definition split_vertical `{BMeshOps} `{PySets} (face : fid) (median : Vector)
           (svertical : R) (do_horizontal : bool) (verts : list vid) : M (list vid) :=
  bm <- get_bm ;;
  op_remove_doubles (bm_verts bm) ;;;
  split_after_merge face median svertical do_horizontal verts.

(** The offsets and the final lookup: lines 203 to 217. *)
Definition split_offsets `{PySets} (do_horizontal do_vertical : bool) (verts : list vid)
           (offx offy offz : R) : M (option fid) :=
  (if do_horizontal && do_vertical then
     bm <- get_bm ;;
     let link_edges := flat_map (link_edges bm) verts in
     let all_verts := list_of_set (flat_map (edge_verts_list bm) link_edges) in
     op_translate (mkVector offx offy 0) all_verts
   else if do_horizontal && negb do_vertical then
     op_translate (mkVector offx offy 0) verts
   else ret tt) ;;;
  op_translate (mkVector 0 0 offz) verts ;;;
  bm <- get_bm ;;
  ret (face_with_verts bm verts None).

Definition split `{BMeshOps} `{PySets} (face : fid) (svertical shorizontal : R)
           (offx offy offz : R) : M (option fid) :=
  let scale := 3 in
  let svertical := svertical * scale in
  let shorizontal := shorizontal * scale in
  let do_vertical := Py.Rlt_bool svertical scale in
  let do_horizontal := Py.Rlt_bool shorizontal scale in
  update_bm (fun bm => set_face_select bm face false) [] ;;;
  bm <- get_bm ;;
  let median := calc_center_median bm face in
  if negb do_horizontal && negb do_vertical then
    ret (Some face)
  else
    verts <- (if do_horizontal then split_horizontal face median shorizontal
              else ret []) ;;
    verts <- (if do_vertical then split_vertical face median svertical do_horizontal verts
              else ret verts) ;;
    split_offsets do_horizontal do_vertical verts offx offy offz.

(** * Specification-side definitions *)

(** The axis table of the vertical classification, as the description
    states it: [x] for a face whose normal has a z component, [x] for
    one with no z but a y component, [y] otherwise. *)
Definition vertical_axis (normal : Vector) : Vector -> R :=
  if Req_dec_T (vz normal) 0 then
    if Req_dec_T (vy normal) 0 then vy else vx
  else vx.

(** Both ends of [e] have the same [axis] coordinate once rounded to
    [nd] decimal places. *)
Definition same_rounded (bm : BMesh) (axis : Vector -> R) (nd : nat) (e : eid) : Prop :=
  Py.round (axis (vert_co bm (fst (edge_verts bm e)))) nd =
  Py.round (axis (vert_co bm (snd (edge_verts bm e)))) nd.

Definition same_roundedb (bm : BMesh) (axis : Vector -> R) (nd : nat) (e : eid) : bool :=
  Py.Req_bool (Py.round (axis (vert_co bm (fst (edge_verts bm e)))) nd)
              (Py.round (axis (vert_co bm (snd (edge_verts bm e)))) nd).

(** The edge set [split_quad] subdivides for [face]: the horizontal
    edges for a vertical split, the vertical ones otherwise. *)
Definition swapped_edges (bm : BMesh) (vertical : bool) (face : fid) : list eid :=
  if vertical then filter_horizontal_edges bm (face_edges bm face) (face_normal bm face)
  else filter_vertical_edges bm (face_edges bm face) (face_normal bm face).

(** One subdivision per face, each on the mesh the previous one left:
    the mesh reached and the operator calls made. *)
Fixpoint subdivide_each `{BMeshOps} (vertical : bool) (cuts : Z) (faces : list fid)
         (bm : BMesh) : BMesh * list BMOp :=
  match faces with
  | [] => (bm, [])
  | face :: rest =>
      let edges := swapped_edges bm vertical face in
      let '(bm', calls) := subdivide_each vertical cuts rest (fst (subdivide_edges bm edges cuts)) in
      (bm', OpSubdivideEdges edges cuts :: calls)
  end.

(** [e] joins [v] and [w], in either order. *)
Definition edge_joins (bm : BMesh) (e : eid) (v w : vid) : Prop :=
  edge_verts bm e = (v, w) \/ edge_verts bm e = (w, v).

Definition vertical_unit (t : Vector) : Prop :=
  vx t = 0 /\ vy t = 0 /\ (vz t = 1 \/ vz t = -1).

Definition horizontal_of_length_2 (s : Vector) : Prop :=
  vz s = 0 /\ vx s * vx s + vy s * vy s = 4.

(** A 1 x 2 rectangle standing upright: its corners are [a], [a + s],
    [a + s + t] and [a + t], where one of [s], [t] is a horizontal
    vector of length 2 and the other is a unit vector along Z. *)
Definition upright_1x2 (bm : BMesh) (f : fid) : Prop :=
  exists a b c d e1 e2 e3 e4 s t,
    ((horizontal_of_length_2 s /\ vertical_unit t) \/
     (vertical_unit s /\ horizontal_of_length_2 t)) /\
    NoDup [a; b; c; d] /\
    face_verts bm f = [a; b; c; d] /\
    face_edges bm f = [e1; e2; e3; e4] /\
    edge_joins bm e1 a b /\ edge_joins bm e2 b c /\
    edge_joins bm e3 c d /\ edge_joins bm e4 d a /\
    vert_co bm b = vadd (vert_co bm a) s /\
    vert_co bm c = vadd (vert_co bm b) t /\
    vert_co bm d = vadd (vert_co bm a) t.

(** * Concrete meshes *)

(** A mesh from its tables; handles are positions in the tables. *)
Definition mesh_of (cos : list Vector) (edges : list (vid * vid))
           (faces : list (list vid * list eid * Vector * bool)) : BMesh :=
  let face_row f := nth f faces ([], [], mkVector 0 0 0, false) in
  mkBMesh (seq 0 (length cos)) (seq 0 (length edges)) (seq 0 (length faces))
          (fun v => nth v cos (mkVector 0 0 0))
          (fun e => nth e edges (0%nat, 0%nat))
          (fun f => fst (fst (fst (face_row f))))
          (fun f => snd (fst (fst (face_row f))))
          (fun f => snd (fst (face_row f)))
          (fun f => snd (face_row f)).

Definition quad_edges : list (vid * vid) :=
  [(0, 1); (1, 2); (2, 3); (3, 0)]%nat.

Definition quad_face (normal : Vector) (select : bool)
  : list vid * list eid * Vector * bool :=
  ([0; 1; 2; 3]%nat, [0; 1; 2; 3]%nat, normal, select).

(** The unit quad of the XZ plane, facing -Y, selected. *)
Definition unit_quad : BMesh :=
  mesh_of [mkVector 0 0 0; mkVector 1 0 0; mkVector 1 0 1; mkVector 0 0 1]
          quad_edges [quad_face (mkVector 0 (-1) 0) true].

(** The same quad, not selected. *)
Definition unit_quad_unselected : BMesh :=
  mesh_of [mkVector 0 0 0; mkVector 1 0 0; mkVector 1 0 1; mkVector 0 0 1]
          quad_edges [quad_face (mkVector 0 (-1) 0) false].

(** A single edge from the origin to (1, 0, 0). *)
Definition x_edge : BMesh :=
  mesh_of [mkVector 0 0 0; mkVector 1 0 0] [(0, 1)%nat] [].

(** A 2 x 1 rectangle standing in the XZ plane: 2 along X, 1 along Z. *)
Definition upright_rect : BMesh :=
  mesh_of [mkVector 0 0 0; mkVector 2 0 0; mkVector 2 0 1; mkVector 0 0 1]
          quad_edges [quad_face (mkVector 0 (-1) 0) true].

(** A 2 x 1 rectangle lying in the plane z = 0, turned about Z: its long
    side runs along (3/5, 4/5, 0). *)
Definition turned_rect : BMesh :=
  mesh_of [mkVector 0 0 0; mkVector (6 / 5) (8 / 5) 0;
           mkVector (2 / 5) (11 / 5) 0; mkVector (- 4 / 5) (3 / 5) 0]
          quad_edges [quad_face (mkVector 0 0 1) true].

(** A 2 x 1 rectangle lying in the plane z = 0 along the axes. *)
Definition flat_rect : BMesh :=
  mesh_of [mkVector 0 0 0; mkVector 2 0 0; mkVector 2 1 0; mkVector 0 1 0]
          quad_edges [quad_face (mkVector 0 0 1) true].

(** A quad and a fifth, loose vertex. *)
Definition quad_and_vertex : BMesh :=
  mesh_of [mkVector 0 0 0; mkVector 1 0 0; mkVector 1 0 1; mkVector 0 0 1;
           mkVector 5 5 5]
          quad_edges [quad_face (mkVector 0 (-1) 0) false].

(** A kernel that leaves the mesh as it is and reports no geometry. *)
Definition idle_ops : BMeshOps :=
  {| subdivide_edges := fun bm _ _ => (bm, mkSubdivResult [] [] []);
     remove_doubles := fun bm _ => bm |}.

(** A kernel whose merge removes the faces of the mesh and whose
    subdivision does nothing. *)
Definition purging_ops : BMeshOps :=
  {| subdivide_edges := fun bm _ _ => (bm, mkSubdivResult [] [] []);
     remove_doubles := fun bm _ =>
       mkBMesh (bm_verts bm) (bm_edges bm) [] (vert_co bm) (edge_verts bm)
               (face_verts bm) (face_edges bm) (face_normal bm) (face_select bm) |}.

(** Sets listed in the order of first insertion. *)
Definition insertion_order : PySets :=
  {| list_of_set := nodup Nat.eq_dec;
     list_of_set_perm := fun l => Permutation_refl (nodup Nat.eq_dec l) |}.

(** * The subdivision of the mesh kernel *)

(** The smallest handle above those of a list. *)
Definition fresh (ids : list nat) : nat := S (list_max ids).

(** The [k]-th of [n] points evenly spaced between [a] and [b]. *)
Definition point_along (a b : Vector) (n k : nat) : Vector :=
  vadd a (vscale (mkVector (INR k / INR (S n)) (INR k / INR (S n)) (INR k / INR (S n)))
                 (vsub b a)).

(** Modelled from the spec: the subdivide primitive of the mesh kernel,
    which is not among the sources.  Section 6 gives its contract:
    [subdivide(edge_set, cuts)] "splits each edge into cuts+1 segments,
    returns newly created interior/boundary geometry".  An edge from [a]
    to [b] becomes a chain of [n + 1] edges through [n] new vertices
    evenly spaced from [a] to [b]; the first edge of the chain keeps the
    handle of the edge, and the loops of the faces that use the edge
    follow the chain.  The new vertices and the edges of the chain are
    returned. *)
Definition subdivide_edge (n : nat) (bm : BMesh) (e : eid) : BMesh * list vid * list eid :=
  let a := fst (edge_verts bm e) in
  let b := snd (edge_verts bm e) in
  let v0 := fresh (bm_verts bm) in
  let e0 := fresh (bm_edges bm) in
  let news := seq v0 n in
  let added := seq e0 n in
  let path := a :: news ++ [b] in
  let segs := e :: added in
  let seg_ends k := (nth k path a, nth (S k) path b) in
  (mkBMesh
     (bm_verts bm ++ news) (bm_edges bm ++ added) (bm_faces bm)
     (fun v => if (v0 <=? v)%nat && (v <? v0 + n)%nat
               then point_along (vert_co bm a) (vert_co bm b) n (S (v - v0))
               else vert_co bm v)
     (fun x => if (x =? e)%nat then seg_ends 0%nat
               else if (e0 <=? x)%nat && (x <? e0 + n)%nat then seg_ends (S (x - e0))
               else edge_verts bm x)
     (fun f => flat_map (fun ve : vid * eid =>
                           if (snd ve =? e)%nat
                           then if (fst ve =? a)%nat then fst ve :: news
                                else fst ve :: rev news
                           else [fst ve])
                        (combine (face_verts bm f) (face_edges bm f)))
     (fun f => flat_map (fun ve : vid * eid =>
                           if (snd ve =? e)%nat
                           then if (fst ve =? a)%nat then segs else rev segs
                           else [snd ve])
                        (combine (face_verts bm f) (face_edges bm f)))
     (face_normal bm) (face_select bm),
   news, segs).



(** * The other functions of the module *)

(** [select(elements, val)], for faces: the flag of each element of the
    sequence is set in turn. *)
Definition select (bm : BMesh) (elements : list fid) (val : bool) : BMesh :=
  fold_left (fun m el => set_face_select m el val) elements bm.

(** [ft.reduce(operator.add, l)]: the elements are added from the left,
    starting with the first; [None] stands for the [TypeError] raised on
    an empty list. *)
Definition reduce_add (l : list Vector) : option Vector :=
  match l with
  | [] => None
  | a :: t => Some (fold_left vadd t a)
  end.

(** [calc_verts_median(verts)].  The sum and the division are those of
    the reals; [mathutils] computes them in single precision. *)
Definition calc_verts_median (bm : BMesh) (verts : list vid) : option Vector :=
  match reduce_add (map (vert_co bm) verts) with
  | Some total => Some (vdiv total (INR (length verts)))
  | None => None
  end.

(** [max(l, key=...)] and [min(l, key=...)]: the first element whose key
    is extreme. *)
Definition max_by (key : Vector -> R) (l : list Vector) : option Vector :=
  match l with
  | [] => None
  | a :: t =>
      Some (fold_left (fun best v => if Rlt_dec (key best) (key v) then v else best) t a)
  end.

Definition min_by (key : Vector -> R) (l : list Vector) : option Vector :=
  match l with
  | [] => None
  | a :: t =>
      Some (fold_left (fun best v => if Rlt_dec (key v) (key best) then v else best) t a)
  end.

(** [max(l) - min(l)]. *)
Definition max_minus_min (l : list R) : Result R :=
  match Py.max l with
  | None => Raise ValueError
  | Some hi =>
      match Py.min l with
      | None => Raise ValueError
      | Some lo => Ok (hi - lo)
      end
  end.

(** [calc_face_dimensions(face)]. *)
Definition calc_face_dimensions (bm : BMesh) (face : fid) : Result (R * R) :=
  let normal := face_normal bm face in
  let cos := map (vert_co bm) (face_verts bm face) in
  let width :=
    if Py.truthy (vx normal) && negb (Py.truthy (vy normal)) then
      max_minus_min (map vy cos)
    else if Py.truthy (vy normal) && negb (Py.truthy (vx normal)) then
      max_minus_min (map vx cos)
    else if Py.truthy (vx normal) && Py.truthy (vy normal) then
      match max_by vx cos with
      | None => Raise ValueError
      | Some v1 =>
          match min_by vx cos with
          | None => Raise ValueError
          | Some v2 => Ok (vlength (vsub v1 v2))
          end
      end
    else Ok 0 in
  match width with
  | Raise e => Raise e
  | Ok width =>
      match max_minus_min (map vz cos) with
      | Raise e => Raise e
      | Ok height => Ok (width, height)
      end
  end.

(** The axis table of the horizontal classification: [y] for a face
    whose normal has a z component, [z] otherwise. *)
Definition horizontal_axis (normal : Vector) : Vector -> R :=
  if Req_dec_T (vz normal) 0 then vz else vy.

(** All of [fverts] are among [verts]. *)
Definition all_among (verts fverts : list vid) : bool :=
  forallb (fun v => existsb (fun u => (u =? v)%nat) verts) fverts.

(** A quad facing +X over y in [0, 2] and z in [0, 3]. *)
Definition wall_x : BMesh :=
  mesh_of [mkVector 0 0 0; mkVector 0 2 0; mkVector 0 2 3; mkVector 0 0 3]
          quad_edges [quad_face (mkVector 1 0 0) true].

(** A 2 x 1 rectangle standing in the XZ plane the other way: 1 along
    X, 2 along Z. *)
Definition tall_rect : BMesh :=
  mesh_of [mkVector 0 0 0; mkVector 0 0 2; mkVector 1 0 2; mkVector 1 0 0]
          quad_edges [quad_face (mkVector 0 (-1) 0) true].

(** A quad pinched to a segment: two of its edges have no length. *)
Definition pinched_quad : BMesh :=
  mesh_of [mkVector 0 0 0; mkVector 1 0 0; mkVector 1 0 0; mkVector 0 0 0]
          quad_edges [quad_face (mkVector 0 (-1) 0) true].

(** * Proofs *)

(** ** Python numerics *)

Lemma Req_bool_true_iff (a b : R) : Py.Req_bool a b = true <-> a = b.
Proof.
  unfold Py.Req_bool. destruct (Req_dec_T a b); split; intros; congruence.
Qed.

Lemma Req_bool_refl (a : R) : Py.Req_bool a a = true.
Proof. apply Req_bool_true_iff; reflexivity. Qed.

Lemma Req_bool_neq (a b : R) : a <> b -> Py.Req_bool a b = false.
Proof. unfold Py.Req_bool. destruct (Req_dec_T a b); congruence. Qed.


(** The set built from two floats has one element exactly when they
    are equal. *)
Lemma set_pair_collapses (a b : R) :
  (length (Py.set [a; b]) =? 1)%nat = Py.Req_bool a b.
Proof.
  unfold Py.set, Py.Req_bool. simpl.
  destruct (Req_dec_T b a) as [E | N]; destruct (Req_dec_T a b) as [E' | N'];
    try reflexivity; congruence.
Qed.

Lemma coords_collapse_same_rounded (bm : BMesh) (axis : Vector -> R) (nd : nat) (e : eid) :
  coords_collapse bm axis nd e = same_roundedb bm axis nd e.
Proof.
  unfold coords_collapse, same_roundedb, edge_verts_list. simpl map.
  apply set_pair_collapses.
Qed.

Lemma same_roundedb_true_iff (bm : BMesh) (axis : Vector -> R) (nd : nat) (e : eid) :
  same_roundedb bm axis nd e = true <-> same_rounded bm axis nd e.
Proof. apply Req_bool_true_iff. Qed.

(** An edge whose ends have the same coordinate collapses, whatever the
    rounding. *)
Lemma coords_collapse_equal (bm : BMesh) (axis : Vector -> R) (nd : nat) (e : eid) :
  axis (vert_co bm (fst (edge_verts bm e))) = axis (vert_co bm (snd (edge_verts bm e))) ->
  coords_collapse bm axis nd e = true.
Proof.
  intros E. rewrite coords_collapse_same_rounded. unfold same_roundedb.
  rewrite E. apply Req_bool_refl.
Qed.

Lemma round_half_even_IZR (k : Z) : Py.round_half_even (IZR k) = k.
Proof.
  unfold Py.round_half_even. rewrite ZfloorZ.
  destruct (Rlt_dec (IZR k - IZR k) (1 / 2)) as [_ | N]; [reflexivity |].
  exfalso; apply N; lra.
Qed.

(** Rounding to one decimal place a number of tenths. *)
Lemma round_tenths (k : Z) : Py.round (IZR k / 10) 1 = IZR k / 10.
Proof.
  unfold Py.round. replace (IZR k / 10 * 10 ^ 1) with (IZR k) by (simpl; lra).
  rewrite round_half_even_IZR. simpl; lra.
Qed.

(** Rounding an integer leaves it as it is. *)
Lemma round_IZR (k : Z) (nd : nat) : Py.round (IZR k) nd = IZR k.
Proof.
  unfold Py.round.
  replace (IZR k * 10 ^ nd) with (IZR (k * 10 ^ Z.of_nat nd)).
  - rewrite round_half_even_IZR, mult_IZR.
    replace (IZR (10 ^ Z.of_nat nd)) with (10 ^ nd).
    + field. apply pow_nonzero. lra.
    + rewrite <- pow_IZR. reflexivity.
  - rewrite mult_IZR, <- pow_IZR. reflexivity.
Qed.

(** A loop that appends the elements passing a test is a filter. *)
Lemma fold_append_filter {A} (p : A -> bool) (l acc : list A) :
  fold_left (fun res e => if p e then res ++ [e] else res) l acc = acc ++ filter p l.
Proof.
  revert acc. induction l as [| a l IH]; intros acc; simpl.
  - now rewrite app_nil_r.
  - rewrite IH. destruct (p a); simpl; [now rewrite <- app_assoc | reflexivity].
Qed.

(** ** C8: the vertical classification *)

Lemma filter_vertical_edges_filter (bm : BMesh) (edges : list eid) (normal : Vector) :
  filter_vertical_edges bm edges normal =
  filter (coords_collapse bm (vertical_axis normal) 4) edges.
Proof.
  unfold filter_vertical_edges.
  unfold vertical_axis, Py.truthy, coords_collapse.
  destruct (Req_dec_T (vz normal) 0); [destruct (Req_dec_T (vy normal) 0) |];
    apply (fold_append_filter _ edges []).
Qed.

(** C8.  [filter_vertical_edges] keeps, in order, exactly the edges
    whose two vertices have the same coordinate, rounded to 4 decimal
    places, on the axis of the table: x when [normal.z] is non-zero, x
    when [normal.z] is zero and [normal.y] is not, y otherwise. *)
Theorem filter_vertical_edges_table (bm : BMesh) (edges : list eid) (normal : Vector) :
  filter_vertical_edges bm edges normal =
    filter (same_roundedb bm (vertical_axis normal) 4) edges
  /\ (forall e, In e (filter_vertical_edges bm edges normal) <->
                In e edges /\ same_rounded bm (vertical_axis normal) 4 e)
  /\ vertical_axis normal =
       (if Req_dec_T (vz normal) 0
        then if Req_dec_T (vy normal) 0 then vy else vx
        else vx).
Proof.
  assert (F : filter_vertical_edges bm edges normal =
              filter (same_roundedb bm (vertical_axis normal) 4) edges).
  { rewrite filter_vertical_edges_filter. apply filter_ext.
    intros e. apply coords_collapse_same_rounded. }
  split; [exact F | split; [| reflexivity]].
  intros e. rewrite F, filter_In, same_roundedb_true_iff. reflexivity.
Qed.

(** On the unit quad facing -Y the vertical edges are the two whose ends
    share an x coordinate. *)
Example filter_vertical_edges_unit_quad :
  filter_vertical_edges unit_quad [0; 1; 2; 3]%nat (mkVector 0 (-1) 0) = [1; 3]%nat.
Proof.
  rewrite filter_vertical_edges_filter.
  assert (A : vertical_axis (mkVector 0 (-1) 0) = vx).
  { unfold vertical_axis; simpl.
    destruct (Req_dec_T 0 0); [| congruence].
    destruct (Req_dec_T (-1) 0); [lra | reflexivity]. }
  rewrite A. simpl filter.
  assert (N : Py.round 0 4 <> Py.round 1 4).
  { rewrite (round_IZR 0 4), (round_IZR 1 4). lra. }
  rewrite !coords_collapse_same_rounded. unfold same_roundedb, Py.Req_bool. simpl.
  destruct (Req_dec_T (Py.round 0 4) (Py.round 1 4)); [contradiction |].
  destruct (Req_dec_T (Py.round 1 4) (Py.round 1 4)); [| congruence].
  destruct (Req_dec_T (Py.round 1 4) (Py.round 0 4)); [congruence |].
  destruct (Req_dec_T (Py.round 0 4) (Py.round 0 4)); [| congruence].
  reflexivity.
Qed.

Lemma filter_horizontal_edges_filter (bm : BMesh) (edges : list eid) (normal : Vector) :
  filter_horizontal_edges bm edges normal =
  filter (coords_collapse bm (if Py.truthy (vz normal) then vy else vz) 4) edges.
Proof.
  unfold filter_horizontal_edges, coords_collapse.
  destruct (Py.truthy (vz normal)); [| destruct (Py.truthy (vy normal))];
    apply (fold_append_filter _ edges []).
Qed.


(** ** C3: the orientation of an edge *)

(** The first test of [calc_edge_orient] answers (0, 0, 1) as soon as
    one of x, y collapses, so the two tests after it never succeed. *)
Lemma calc_edge_orient_range (bm : BMesh) (e : eid) :
  calc_edge_orient bm e = mkVector 0 0 1 \/ calc_edge_orient bm e = mkVector 0 0 0.
Proof.
  unfold calc_edge_orient.
  destruct (length (Py.set (map (fun v => Py.round (vx (vert_co bm v)) 1)
                                (edge_verts_list bm e))) =? 1)%nat;
    destruct (length (Py.set (map (fun v => Py.round (vy (vert_co bm v)) 1)
                                  (edge_verts_list bm e))) =? 1)%nat;
    simpl; auto; rewrite ?andb_false_r; auto.
Qed.

Lemma calc_edge_orient_cases (bm : BMesh) (e : eid) :
  calc_edge_orient bm e =
  if coords_collapse bm vx 1 e || coords_collapse bm vy 1 e
  then mkVector 0 0 1 else mkVector 0 0 0.
Proof.
  unfold calc_edge_orient, coords_collapse.
  destruct (length (Py.set (map (fun v => Py.round (vx (vert_co bm v)) 1)
                                (edge_verts_list bm e))) =? 1)%nat;
    destruct (length (Py.set (map (fun v => Py.round (vy (vert_co bm v)) 1)
                                  (edge_verts_list bm e))) =? 1)%nat;
    simpl; auto; rewrite ?andb_false_r; auto.
Qed.

(** C3.  The edge from (0, 0, 0) to (1, 0, 0) lies along X: its y and z
    coordinates collapse and x does not.  [calc_edge_orient] answers
    (0, 0, 1) for it, not (1, 0, 0). *)
Theorem calc_edge_orient_x_edge :
  coords_collapse x_edge vx 1 0%nat = false /\
  coords_collapse x_edge vy 1 0%nat = true /\
  coords_collapse x_edge vz 1 0%nat = true /\
  calc_edge_orient x_edge 0%nat = mkVector 0 0 1 /\
  calc_edge_orient x_edge 0%nat <> mkVector 1 0 0.
Proof.
  assert (X : coords_collapse x_edge vx 1 0%nat = false).
  { rewrite coords_collapse_same_rounded. unfold same_roundedb, Py.Req_bool. simpl.
    destruct (Req_dec_T (Py.round 0 1) (Py.round 1 1)) as [E | _]; [| reflexivity].
    exfalso. rewrite (round_IZR 0 1), (round_IZR 1 1) in E. lra. }
  assert (Y : coords_collapse x_edge vy 1 0%nat = true) by (apply coords_collapse_equal; reflexivity).
  assert (Z : coords_collapse x_edge vz 1 0%nat = true) by (apply coords_collapse_equal; reflexivity).
  assert (O : calc_edge_orient x_edge 0%nat = mkVector 0 0 1).
  { rewrite calc_edge_orient_cases, X, Y. reflexivity. }
  repeat split; auto.
  rewrite O. intros E. injection E as E1 E2. lra.
Qed.

(** ** C2: the face found by [face_with_verts] *)

(** What the length test says when [verts] has no duplicates: the face
    has no vertex outside [verts]. *)
Lemma length_test_incl (fverts verts : list vid) :
  NoDup verts ->
  length (nodup Nat.eq_dec (fverts ++ verts)) = length verts ->
  incl fverts verts.
Proof.
  intros ND L.
  assert (I : incl (nodup Nat.eq_dec (fverts ++ verts)) verts).
  { apply NoDup_length_incl; [exact ND | exact (Nat.eq_le_incl _ _ L) |].
    intros v Hv. apply nodup_In, in_or_app. now right. }
  intros v Hv. apply I, nodup_In, in_or_app. now left.
Qed.

Lemma face_with_verts_loop_found (bm : BMesh) (faces : list fid) (verts : list vid)
      (default : option fid) (f : fid) :
  face_with_verts_loop bm faces verts default = Some f ->
  default <> Some f ->
  In f faces /\
  length (nodup Nat.eq_dec (face_verts bm f ++ verts)) = length verts.
Proof.
  induction faces as [| g faces IH]; simpl; intros E D.
  - congruence.
  - destruct (length (nodup Nat.eq_dec (face_verts bm g ++ verts)) =? length verts)%nat eqn:T.
    + injection E as <-. apply Nat.eqb_eq in T. auto.
    + destruct (IH E D) as [I L]. auto.
Qed.

(** C2, as amended.  When [verts] has no duplicates and
    [face_with_verts] returns a face that is not the default, every
    vertex of that face is one of [verts]; the face holds all of [verts]
    when, in addition, it has as many distinct vertices as [verts] has
    entries. *)
Theorem face_with_verts_subset (bm : BMesh) (verts : list vid) (default : option fid)
        (f : fid) :
  NoDup verts ->
  face_with_verts bm verts default = Some f ->
  default <> Some f ->
  In f (bm_faces bm) /\
  incl (face_verts bm f) verts /\
  (length (nodup Nat.eq_dec (face_verts bm f)) = length verts ->
   incl verts (face_verts bm f)).
Proof.
  intros ND E D. unfold face_with_verts in E.
  destruct (face_with_verts_loop_found _ _ _ _ _ E D) as [I L].
  pose proof (length_test_incl _ _ ND L) as S.
  repeat split; auto.
  intros LF v Hv.
  apply (nodup_In Nat.eq_dec).
  revert v Hv. apply NoDup_length_incl.
  - apply NoDup_nodup.
  - exact (Nat.eq_le_incl _ _ (eq_sym LF)).
  - intros v Hv. apply S. eapply nodup_In; eauto.
Qed.

Lemma face_with_verts_subset_witness :
  face_with_verts quad_and_vertex [0; 1; 2; 3; 4]%nat None = Some 0%nat /\
  incl (face_verts quad_and_vertex 0%nat) [0; 1; 2; 3; 4]%nat.
Proof.
  split; [reflexivity |].
  apply (face_with_verts_subset quad_and_vertex [0; 1; 2; 3; 4]%nat None 0%nat).
  - repeat constructor; simpl; intuition lia.
  - reflexivity.
  - discriminate.
Defined.

(** C2, as stated, fails: for the quad 0-1-2-3 and the list of its four
    vertices and a fifth, the quad is returned and lacks the fifth. *)
Lemma face_with_verts_not_superset :
  face_with_verts quad_and_vertex [0; 1; 2; 3; 4]%nat None = Some 0%nat /\
  In 4%nat [0; 1; 2; 3; 4]%nat /\
  ~ In 4%nat (face_verts quad_and_vertex 0%nat).
Proof.
  split; [reflexivity | split].
  - simpl; auto 10.
  - simpl. intuition discriminate.
Qed.

(** A face that holds all of [verts] and one vertex more is passed
    over. *)
Example face_with_verts_skips_superset :
  face_with_verts quad_and_vertex [0; 1]%nat None = None.
Proof. reflexivity. Qed.

(** ** C5 and C1: the pass-through of [split] *)

Lemma Rlt_bool_false (a b : R) : b <= a -> Py.Rlt_bool a b = false.
Proof.
  intros H. unfold Py.Rlt_bool. destruct (Rlt_dec a b); [lra | reflexivity].
Qed.

Lemma Rlt_bool_true (a b : R) : a < b -> Py.Rlt_bool a b = true.
Proof.
  intros H. unfold Py.Rlt_bool. destruct (Rlt_dec a b); [reflexivity | lra].
Qed.

(** [split] compares the ratios with the scale constant after it has
    multiplied them by it: a ratio of 1 or more skips its axis, and when
    both are skipped the face is deselected and returned. *)
Lemma split_skips_both `{BMeshOps} `{PySets} (w : World) (face : fid)
      (svertical shorizontal offx offy offz : R) :
  1 <= svertical -> 1 <= shorizontal ->
  split face svertical shorizontal offx offy offz w =
  (Ok (Some face), mkWorld (set_face_select (w_bm w) face false) (w_log w)).
Proof.
  intros V Hz. unfold split.
  rewrite (Rlt_bool_false (svertical * 3) 3) by lra.
  rewrite (Rlt_bool_false (shorizontal * 3) 3) by lra.
  unfold bind, update_bm, get_bm, ret. simpl.
  now rewrite app_nil_r.
Qed.

(** C5.  With both ratios equal to 3 [split] returns the face it was
    given; no operator is called, and the mesh is the one it was given
    but for the selection flag of the face, which is cleared. *)
Theorem split_3_3_pass_through `{BMeshOps} `{PySets} (w : World) (face : fid) (offx offy offz : R) :
  let r := split face 3 3 offx offy offz w in
  fst r = Ok (Some face) /\
  w_log (snd r) = w_log w /\
  w_bm (snd r) = set_face_select (w_bm w) face false /\
  face_select (w_bm (snd r)) face = false /\
  bm_verts (w_bm (snd r)) = bm_verts (w_bm w) /\
  bm_edges (w_bm (snd r)) = bm_edges (w_bm w) /\
  bm_faces (w_bm (snd r)) = bm_faces (w_bm w) /\
  vert_co (w_bm (snd r)) = vert_co (w_bm w) /\
  edge_verts (w_bm (snd r)) = edge_verts (w_bm w) /\
  face_verts (w_bm (snd r)) = face_verts (w_bm w) /\
  face_edges (w_bm (snd r)) = face_edges (w_bm w) /\
  face_normal (w_bm (snd r)) = face_normal (w_bm w) /\
  filter (fun g => negb (g =? face)%nat && face_select (w_bm (snd r)) g) (bm_faces (w_bm w)) =
  filter (fun g => negb (g =? face)%nat && face_select (w_bm w) g) (bm_faces (w_bm w)).
Proof.
  intros r. subst r. rewrite split_skips_both by lra. simpl.
  rewrite Nat.eqb_refl.
  repeat split.
  apply filter_ext. intros g. destruct (g =? face)%nat; reflexivity.
Qed.




(** ** The trace only grows *)

Definition appends {A} (m : M A) : Prop :=
  forall w, exists calls, w_log (snd (m w)) = w_log w ++ calls.

Lemma appends_ret {A} (a : A) : appends (ret a).
Proof. intros w. exists []. simpl. now rewrite app_nil_r. Qed.

Lemma appends_raise {A} (e : PyError) : appends (@raise A e).
Proof. intros w. exists []. simpl. now rewrite app_nil_r. Qed.

Lemma appends_get_bm : appends get_bm.
Proof. intros w. exists []. simpl. now rewrite app_nil_r. Qed.

Lemma appends_update_bm (f : BMesh -> BMesh) (op : list BMOp) : appends (update_bm f op).
Proof. intros w. exists op. reflexivity. Qed.

Lemma appends_from_option {A} (e : PyError) (o : option A) : appends (from_option e o).
Proof. destruct o; [apply appends_ret | apply appends_raise]. Qed.

Lemma appends_bind {A B} (m : M A) (f : A -> M B) :
  appends m -> (forall a, appends (f a)) -> appends (bind m f).
Proof.
  intros Hm Hf w. unfold bind.
  destruct (Hm w) as [l1 E1].
  destruct (m w) as [[a | e] w1]; simpl in *.
  - destruct (Hf a w1) as [l2 E2]. exists (l1 ++ l2).
    now rewrite E2, E1, app_assoc.
  - now exists l1.
Qed.

Lemma appends_op_subdivide_edges `{BMeshOps} (edges : list eid) (cuts : Z) :
  appends (op_subdivide_edges edges cuts).
Proof.
  intros w. unfold op_subdivide_edges.
  destruct (subdivide_edges (w_bm w) edges cuts) as [bm' res].
  now exists [OpSubdivideEdges edges cuts].
Qed.

Ltac appends_step :=
  first
    [ apply appends_ret
    | apply appends_raise
    | apply appends_get_bm
    | apply appends_update_bm
    | apply appends_from_option
    | apply appends_op_subdivide_edges
    | apply appends_bind; [| intro]
    | match goal with |- appends (if ?c then _ else _) => destruct c end ].

Ltac appends_all := repeat appends_step.

Lemma appends_split_horizontal `{BMeshOps} (face : fid) (median : Vector) (sh : R) :
  appends (split_horizontal face median sh).
Proof. unfold split_horizontal, op_scale. appends_all. Qed.

(** ** C9: the merge of the vertical pass *)

Lemma appends_deref_face (bm : BMesh) (face : option fid) : appends (deref_face bm face).
Proof.
  unfold deref_face. destruct face as [f |]; [| apply appends_raise].
  destruct (existsb _ _); [apply appends_ret | apply appends_raise].
Qed.

Lemma appends_split_after_merge `{BMeshOps} `{PySets} (face : fid) (median : Vector)
      (sv : R) (do_horizontal : bool) (verts : list vid) :
  appends (split_after_merge face median sv do_horizontal verts).
Proof.
  unfold split_after_merge, op_scale.
  apply appends_bind; [apply appends_get_bm | intros bm].
  apply appends_bind; [apply appends_deref_face | intros f].
  appends_all.
Qed.

Lemma appends_split_offsets `{PySets} (do_horizontal do_vertical : bool) (verts : list vid)
      (offx offy offz : R) :
  appends (split_offsets do_horizontal do_vertical verts offx offy offz).
Proof.
  unfold split_offsets, op_translate.
  destruct do_horizontal, do_vertical; simpl; appends_all.
Qed.

(** The vertical pass is the merge of the whole mesh followed by the
    rest of the pass on the merged mesh. *)
Lemma split_vertical_run `{BMeshOps} `{PySets} (face : fid) (median : Vector) (sv : R)
      (do_horizontal : bool) (verts : list vid) (w : World) :
  split_vertical face median sv do_horizontal verts w =
  split_after_merge face median sv do_horizontal verts
    (mkWorld (remove_doubles (w_bm w) (bm_verts (w_bm w)))
             (w_log w ++ [OpRemoveDoubles (bm_verts (w_bm w))])).
Proof. reflexivity. Qed.

Lemma split_horizontal_returns `{BMeshOps} (face : fid) (median : Vector) (sh : R)
      (w : World) :
  exists verts, fst (split_horizontal face median sh w) = Ok verts.
Proof.
  unfold split_horizontal, bind, get_bm, op_subdivide_edges, op_scale, update_bm, ret.
  simpl. destruct (subdivide_edges (w_bm w) _ 2) as [bm' res]. simpl. eauto.
Qed.

(** C9.  Whenever the vertical pass of [split] runs, the first thing it
    does is to apply [remove_doubles] to the mesh with the list of all
    the vertices of the mesh: the mesh as the horizontal pass left it
    when that pass ran, the mesh as it was given (the face deselected)
    when it did not.  The rest of [split], lines 187 to 217, then runs
    on the merged mesh. *)
Theorem split_vertical_pass_merges_whole_mesh `{BMeshOps} `{PySets} (w : World) (face : fid)
        (svertical shorizontal offx offy offz : R) :
  svertical * 3 < 3 ->
  let w1 := mkWorld (set_face_select (w_bm w) face false) (w_log w) in
  let median := calc_center_median (w_bm w1) face in
  let do_horizontal := Py.Rlt_bool (shorizontal * 3) 3 in
  let w2 := if do_horizontal
            then snd (split_horizontal face median (shorizontal * 3) w1)
            else w1 in
  let verts := if do_horizontal
               then match fst (split_horizontal face median (shorizontal * 3) w1) with
                    | Ok verts => verts
                    | Raise _ => []
                    end
               else [] in
  let w3 := mkWorld (remove_doubles (w_bm w2) (bm_verts (w_bm w2)))
                    (w_log w2 ++ [OpRemoveDoubles (bm_verts (w_bm w2))]) in
  split face svertical shorizontal offx offy offz w =
    (verts' <- split_after_merge face median (svertical * 3) do_horizontal verts ;;
     split_offsets do_horizontal true verts' offx offy offz) w3
  /\ exists rest,
       w_log (snd (split face svertical shorizontal offx offy offz w)) =
       w_log w2 ++ OpRemoveDoubles (bm_verts (w_bm w2)) :: rest.
Proof.
  intros V w1 median do_horizontal w2 verts w3.
  assert (E : split face svertical shorizontal offx offy offz w =
              (verts' <- split_after_merge face median (svertical * 3) do_horizontal verts ;;
               split_offsets do_horizontal true verts' offx offy offz) w3).
  { unfold split.
    rewrite (Rlt_bool_true (svertical * 3) 3) by assumption.
    unfold bind at 1. unfold update_bm at 1. cbn [w_bm w_log]. rewrite app_nil_r.
    fold w1. unfold bind at 1. unfold get_bm at 1. cbn [w_bm]. fold median.
    fold do_horizontal. rewrite andb_false_r.
    subst w3 verts w2. destruct do_horizontal.
    - unfold bind at 1.
      destruct (split_horizontal_returns face median (shorizontal * 3) w1) as [v Ev].
      destruct (split_horizontal face median (shorizontal * 3) w1) as [r w2] eqn:Eh.
      simpl in Ev. subst r. cbn [fst snd].
      unfold bind at 1. rewrite split_vertical_run. reflexivity.
    - unfold bind at 1. unfold ret at 1.
      unfold bind at 1. rewrite split_vertical_run. reflexivity. }
  split; [exact E |].
  rewrite E.
  assert (A : appends
                (verts' <- split_after_merge face median (svertical * 3) do_horizontal verts ;;
                 split_offsets do_horizontal true verts' offx offy offz)).
  { apply appends_bind; [apply appends_split_after_merge |].
    intros a. apply appends_split_offsets. }
  destruct (A w3) as [rest Er]. exists rest. rewrite Er.
  subst w3. cbn [w_log]. now rewrite <- app_assoc.
Qed.

(** A vertical-only split of the unit quad: the ratio 1/2 runs the
    vertical pass, the ratio 1 skips the horizontal one, and the first
    operator called is [remove_doubles] on the four vertices of the
    mesh. *)
Lemma split_vertical_pass_merges_whole_mesh_witness :
  exists rest,
    w_log (snd (split (H := idle_ops) (H0 := insertion_order) 0%nat (1 / 2) 1 0 0 0 (mkWorld unit_quad []))) =
    OpRemoveDoubles [0; 1; 2; 3]%nat :: rest.
Proof.
  destruct (split_vertical_pass_merges_whole_mesh (H := idle_ops) (H0 := insertion_order)
              (mkWorld unit_quad []) 0%nat (1 / 2) 1 0 0 0) as [_ [rest E]]; [lra |].
  exists rest. rewrite E.
  rewrite (Rlt_bool_false (1 * 3) 3) by lra. reflexivity.
Defined.

(** ** C7 and C10: [split_quad] *)

Lemma split_quad_body_run `{BMeshOps} (vertical : bool) (cuts : Z) (face : fid) (w : World) :
  split_quad_body vertical cuts face w =
  (Ok (snd (subdivide_edges (w_bm w) (swapped_edges (w_bm w) vertical face) cuts)),
   mkWorld (fst (subdivide_edges (w_bm w) (swapped_edges (w_bm w) vertical face) cuts))
           (w_log w ++ [OpSubdivideEdges (swapped_edges (w_bm w) vertical face) cuts])).
Proof.
  unfold split_quad_body, swapped_edges, bind, get_bm, op_subdivide_edges.
  destruct vertical;
    match goal with
    | |- context [subdivide_edges ?b ?e ?c] => destruct (subdivide_edges b e c)
    end; reflexivity.
Qed.






(** The subdivision of the spec makes [n] new vertices and a chain of
    [n + 1] edges out of an edge. *)
Lemma subdivide_edge_chain (n : nat) (bm : BMesh) (e : eid) :
  length (snd (fst (subdivide_edge n bm e))) = n /\
  length (snd (subdivide_edge n bm e)) = S n.
Proof.
  unfold subdivide_edge. cbn [fst snd length]. now rewrite !length_seq.
Qed.


(** C10.  When no face of the mesh is selected the loop of [split_quad]
    does not run, [res] is never bound, and the [return res] after the
    mesh update raises [UnboundLocalError]. *)
Theorem split_quad_no_selection_unbound `{BMeshOps} (w : World) (vertical : bool) (cuts : Z) :
  (forall f, In f (bm_faces (w_bm w)) -> face_select (w_bm w) f = false) ->
  split_quad vertical cuts w =
  (Raise UnboundLocalError, mkWorld (w_bm w) (w_log w ++ [OpUpdateEditMesh])).
Proof.
  intros N. unfold split_quad. unfold bind at 1. unfold get_bm at 1. cbn [w_bm].
  assert (E : filter (fun f => face_select (w_bm w) f) (bm_faces (w_bm w)) = []).
  { induction (bm_faces (w_bm w)) as [| f l IH]; [reflexivity |].
    simpl. rewrite (N f) by (now left). apply IH. intros g Hg. apply N. now right. }
  rewrite E. reflexivity.
Qed.

Lemma split_quad_no_selection_unbound_witness :
  fst (split_quad (H := idle_ops) false 4 (mkWorld unit_quad_unselected [])) =
  Raise UnboundLocalError.
Proof.
  rewrite (split_quad_no_selection_unbound (H := idle_ops)
             (mkWorld unit_quad_unselected []) false 4%Z).
  - reflexivity.
  - intros f [<- | []]. reflexivity.
Defined.

(** ** C6: the division of [square_face] *)

Lemma fold_Rmin_In (l : list R) (a : R) : In (fold_left Rmin l a) (a :: l).
Proof.
  revert a. induction l as [| b l IH]; intros a; simpl.
  - now left.
  - destruct (IH (Rmin a b)) as [E | I]; [| auto].
    rewrite <- E. unfold Rmin. destruct (Rle_dec a b); auto.
Qed.

Lemma min_In (l : list R) (m : R) : Py.min l = Some m -> In m l.
Proof.
  destruct l as [| a l]; simpl; [discriminate |].
  intros E. injection E as <-. apply fold_Rmin_In.
Qed.

Lemma last_item_some {A} (l : list A) : l <> [] -> exists a, Py.last_item l = Some a.
Proof.
  induction l as [| a l IH]; [congruence |].
  intros _. destruct l as [| b l]; [now exists a |].
  destruct IH as [c E]; [discriminate |]. exists c. exact E.
Qed.

Lemma last_item_In {A} (l : list A) (a : A) : Py.last_item l = Some a -> In a l.
Proof.
  induction l as [| b l IH]; [discriminate |].
  destruct l as [| c l]; simpl.
  - intros E. injection E as <-. now left.
  - intros E. right. apply IH. exact E.
Qed.

(** An edge of minimal length is always found by the filter. *)
Lemma min_edge_exists (bm : BMesh) (edges : list eid) (m : R) :
  Py.min (map (calc_length bm) edges) = Some m ->
  exists e, Py.last_item (filter (fun e => Py.Req_bool (calc_length bm e) m) edges) = Some e.
Proof.
  intros E. apply last_item_some.
  apply min_In, in_map_iff in E. destruct E as [e [El Ie]].
  intros F.
  assert (I : In e (filter (fun e => Py.Req_bool (calc_length bm e) m) edges)).
  { apply filter_In. split; [exact Ie |]. apply Req_bool_true_iff. exact El. }
  rewrite F in I. contradiction.
Qed.

(** What [square_face] returns, given the extreme lengths. *)
Lemma square_face_result (w : World) (face : fid) (max_length min_length : R) :
  Py.max (map (calc_length (w_bm w)) (face_edges (w_bm w) face)) = Some max_length ->
  Py.min (map (calc_length (w_bm w)) (face_edges (w_bm w) face)) = Some min_length ->
  fst (square_face face w) =
  if Req_dec_T min_length 0 then Raise ZeroDivisionError
  else Ok (max_length / min_length).
Proof.
  intros Emax Emin. unfold square_face.
  unfold bind at 1. unfold get_bm at 1. cbn [w_bm].
  rewrite Emax, Emin. simpl from_option.
  unfold bind at 1. unfold ret at 1.
  unfold bind at 1. unfold ret at 1.
  unfold bind at 1. unfold py_div.
  destruct (Req_dec_T min_length 0) as [Z | NZ]; [reflexivity |].
  unfold ret at 1.
  destruct (min_edge_exists _ _ _ Emin) as [e Ee].
  unfold bind at 1. rewrite Ee. reflexivity.
Qed.

(** C6.  For a face with at least one edge, [square_face] raises
    [ZeroDivisionError] exactly when the least edge length is 0, and
    otherwise returns the greatest edge length divided by the least. *)
Theorem square_face_division (w : World) (face : fid) :
  face_edges (w_bm w) face <> [] ->
  exists max_length min_length,
    Py.max (map (calc_length (w_bm w)) (face_edges (w_bm w) face)) = Some max_length /\
    Py.min (map (calc_length (w_bm w)) (face_edges (w_bm w) face)) = Some min_length /\
    (fst (square_face face w) = Raise ZeroDivisionError <-> min_length = 0) /\
    fst (square_face face w) =
      (if Req_dec_T min_length 0 then Raise ZeroDivisionError
       else Ok (max_length / min_length)).
Proof.
  intros NE.
  destruct (Py.max (map (calc_length (w_bm w)) (face_edges (w_bm w) face)))
    as [max_length |] eqn:Emax;
    [| destruct (face_edges (w_bm w) face); [congruence | discriminate]].
  destruct (Py.min (map (calc_length (w_bm w)) (face_edges (w_bm w) face)))
    as [min_length |] eqn:Emin;
    [| destruct (face_edges (w_bm w) face); [congruence | discriminate]].
  exists max_length, min_length.
  rewrite (square_face_result w face max_length min_length Emax Emin).
  repeat split; try reflexivity.
  - destruct (Req_dec_T min_length 0); congruence.
  - intros Z. destruct (Req_dec_T min_length 0); congruence.
Qed.

Lemma square_face_division_witness :
  exists max_length min_length,
    Py.max (map (calc_length upright_rect) (face_edges upright_rect 0%nat)) = Some max_length /\
    Py.min (map (calc_length upright_rect) (face_edges upright_rect 0%nat)) = Some min_length /\
    (fst (square_face 0%nat (mkWorld upright_rect [])) = Raise ZeroDivisionError
     <-> min_length = 0) /\
    fst (square_face 0%nat (mkWorld upright_rect [])) =
      (if Req_dec_T min_length 0 then Raise ZeroDivisionError
       else Ok (max_length / min_length)).
Proof.
  apply (square_face_division (mkWorld upright_rect []) 0%nat).
  discriminate.
Defined.

(** ** C4: squaring a 1 x 2 rectangle *)

Lemma vlength_is (v : Vector) (r : R) :
  0 <= r -> vx v * vx v + vy v * vy v + vz v * vz v = r * r -> vlength v = r.
Proof.
  intros P E. unfold vlength. rewrite E. apply sqrt_square. exact P.
Qed.

Lemma vlength_vsub_sym (a b : Vector) : vlength (vsub a b) = vlength (vsub b a).
Proof.
  unfold vlength, vsub. simpl. f_equal. ring.
Qed.

Lemma calc_length_joins (bm : BMesh) (e : eid) (v u : vid) :
  edge_joins bm e v u ->
  calc_length bm e = vlength (vsub (vert_co bm u) (vert_co bm v)).
Proof.
  unfold calc_length. intros [E | E]; rewrite E; simpl.
  - apply vlength_vsub_sym.
  - reflexivity.
Qed.

(** An edge whose ends stand one above the other is classified
    (0, 0, 1). *)
Lemma calc_edge_orient_joins_vertical (bm : BMesh) (e : eid) (v u : vid) :
  edge_joins bm e v u ->
  vx (vert_co bm v) = vx (vert_co bm u) ->
  calc_edge_orient bm e = mkVector 0 0 1.
Proof.
  intros J X. rewrite calc_edge_orient_cases.
  rewrite (coords_collapse_equal bm vx 1 e); [reflexivity |].
  destruct J as [E | E]; rewrite E; simpl; congruence.
Qed.

Lemma ops_scale_cons (bm : BMesh) (vec t : Vector) (v : vid) (verts : list vid) :
  ops_scale bm vec t (v :: verts) =
  ops_scale (set_vert_co bm v (scale_co vec t (vert_co bm v))) vec t verts.
Proof. reflexivity. Qed.

Lemma ops_scale_topology (bm : BMesh) (vec t : Vector) (verts : list vid) :
  edge_verts (ops_scale bm vec t verts) = edge_verts bm /\
  face_edges (ops_scale bm vec t verts) = face_edges bm /\
  face_verts (ops_scale bm vec t verts) = face_verts bm.
Proof.
  revert bm. induction verts as [| v verts IH]; intros bm.
  - repeat split.
  - rewrite ops_scale_cons. destruct (IH (set_vert_co bm v (scale_co vec t (vert_co bm v))))
      as [E1 [E2 E3]]. rewrite E1, E2, E3. repeat split.
Qed.

Lemma ops_scale_vert_co_other (bm : BMesh) (vec t : Vector) (verts : list vid) (v : vid) :
  ~ In v verts -> vert_co (ops_scale bm vec t verts) v = vert_co bm v.
Proof.
  revert bm. induction verts as [| u verts IH]; intros bm N.
  - reflexivity.
  - rewrite ops_scale_cons, IH by (intros I; apply N; now right).
    simpl. destruct (Nat.eqb_spec v u) as [-> | _]; [| reflexivity].
    exfalso. apply N. now left.
Qed.

(** Each vertex of a duplicate-free list is scaled once. *)
Lemma ops_scale_vert_co (bm : BMesh) (vec t : Vector) (verts : list vid) (v : vid) :
  NoDup verts -> In v verts ->
  vert_co (ops_scale bm vec t verts) v = scale_co vec t (vert_co bm v).
Proof.
  revert bm. induction verts as [| u verts IH]; intros bm ND I; [contradiction |].
  rewrite ops_scale_cons. inversion ND as [| ? ? Nu ND']; subst.
  destruct I as [-> | I].
  - rewrite ops_scale_vert_co_other by assumption. simpl.
    now rewrite Nat.eqb_refl.
  - rewrite IH by assumption. simpl.
    destruct (Nat.eqb_spec v u) as [-> | _]; [contradiction | reflexivity].
Qed.

(** The run of [square_face] past the division. *)
Lemma square_face_run (w : World) (face : fid) (max_length min_length : R) (min_edge : eid) :
  Py.max (map (calc_length (w_bm w)) (face_edges (w_bm w) face)) = Some max_length ->
  Py.min (map (calc_length (w_bm w)) (face_edges (w_bm w) face)) = Some min_length ->
  min_length <> 0 ->
  Py.last_item (filter (fun e => Py.Req_bool (calc_length (w_bm w) e) min_length)
                       (face_edges (w_bm w) face)) = Some min_edge ->
  let scale_factor := max_length / min_length in
  let orient := calc_edge_orient (w_bm w) min_edge in
  let scale_vec :=
    if Vector_eqb orient (mkVector 1 0 0) then mkVector scale_factor 1 1
    else if Vector_eqb orient (mkVector 0 1 0) then mkVector 1 scale_factor 1
    else if Vector_eqb orient (mkVector 0 0 1) then mkVector 1 1 scale_factor
    else mkVector 1 1 1 in
  let space := vneg (calc_center_median (w_bm w) face) in
  square_face face w =
  (Ok scale_factor,
   mkWorld (ops_scale (w_bm w) scale_vec space (face_verts (w_bm w) face))
           (w_log w ++ [OpScale scale_vec space (face_verts (w_bm w) face)])).
Proof.
  intros Emax Emin NZ Ee. simpl. unfold square_face.
  unfold bind at 1. unfold get_bm at 1. cbn [w_bm].
  rewrite Emax, Emin. simpl from_option.
  unfold bind at 1. unfold ret at 1.
  unfold bind at 1. unfold ret at 1.
  unfold bind at 1. unfold py_div.
  destruct (Req_dec_T min_length 0) as [Z | _]; [contradiction |].
  unfold ret at 1. unfold bind at 1. rewrite Ee.
  reflexivity.
Qed.

Lemma Vector_eqb_refl (a : Vector) : Vector_eqb a a = true.
Proof. unfold Vector_eqb. destruct (Vector_eq_dec a a); congruence. Qed.

Lemma Vector_eqb_neq (a b : Vector) : a <> b -> Vector_eqb a b = false.
Proof. unfold Vector_eqb. destruct (Vector_eq_dec a b); congruence. Qed.

Lemma Rmax_2_1 : Rmax 2 1 = 2.
Proof. apply Rmax_left. lra. Qed.
Lemma Rmax_1_2 : Rmax 1 2 = 2.
Proof. apply Rmax_right. lra. Qed.
Lemma Rmax_2_2 : Rmax 2 2 = 2.
Proof. apply Rmax_left. lra. Qed.
Lemma Rmin_2_1 : Rmin 2 1 = 1.
Proof. apply Rmin_right. lra. Qed.
Lemma Rmin_1_2 : Rmin 1 2 = 1.
Proof. apply Rmin_left. lra. Qed.
Lemma Rmin_1_1 : Rmin 1 1 = 1.
Proof. apply Rmin_left. lra. Qed.

(** [scale_co] with the vector (1, 1, k) keeps x and y and stretches
    the z distance between two points by k. *)
Lemma scale_co_z_difference (k : R) (t p q : Vector) :
  vsub (scale_co (mkVector 1 1 k) t p) (scale_co (mkVector 1 1 k) t q) =
  mkVector (vx p - vx q) (vy p - vy q) (k * (vz p - vz q)).
Proof.
  unfold scale_co, vsub, vscale, vadd. simpl. f_equal; ring.
Qed.

Lemma orient_z_scale_vec (k : R) :
  (if Vector_eqb (mkVector 0 0 1) (mkVector 1 0 0) then mkVector k 1 1
   else if Vector_eqb (mkVector 0 0 1) (mkVector 0 1 0) then mkVector 1 k 1
   else if Vector_eqb (mkVector 0 0 1) (mkVector 0 0 1) then mkVector 1 1 k
   else mkVector 1 1 1) = mkVector 1 1 k.
Proof.
  rewrite (Vector_eqb_neq (mkVector 0 0 1) (mkVector 1 0 0))
    by (intros E; injection E; intros; lra).
  rewrite (Vector_eqb_neq (mkVector 0 0 1) (mkVector 0 1 0))
    by (intros E; injection E; intros; lra).
  now rewrite Vector_eqb_refl.
Qed.

Lemma orient_none_scale_vec (k : R) :
  (if Vector_eqb (mkVector 0 0 0) (mkVector 1 0 0) then mkVector k 1 1
   else if Vector_eqb (mkVector 0 0 0) (mkVector 0 1 0) then mkVector 1 k 1
   else if Vector_eqb (mkVector 0 0 0) (mkVector 0 0 1) then mkVector 1 1 k
   else mkVector 1 1 1) = mkVector 1 1 1.
Proof.
  rewrite !Vector_eqb_neq by (intros E; injection E; intros; lra).
  reflexivity.
Qed.

(** The length of an edge after a scale by (1, 1, k) of both its
    ends. *)
Lemma calc_length_after_z_scale (bm : BMesh) (k : R) (space : Vector) (verts : list vid)
      (e : eid) (v u : vid) :
  NoDup verts -> In v verts -> In u verts ->
  edge_joins bm e v u ->
  calc_length (ops_scale bm (mkVector 1 1 k) space verts) e =
  vlength (mkVector (vx (vert_co bm u) - vx (vert_co bm v))
                    (vy (vert_co bm u) - vy (vert_co bm v))
                    (k * (vz (vert_co bm u) - vz (vert_co bm v)))).
Proof.
  intros ND Iv Iu J.
  rewrite (calc_length_joins _ e v u).
  - rewrite !ops_scale_vert_co by assumption. now rewrite scale_co_z_difference.
  - unfold edge_joins.
    destruct (ops_scale_topology bm (mkVector 1 1 k) space verts) as [-> _]. exact J.
Qed.

(** Where the squaring works: for a 1 x 2 rectangle standing upright,
    its short edges along Z, [square_face] returns 2 and the scale it applies
    about the median centre leaves the four edges of the face with the
    same length, 2. *)
Theorem square_face_upright_1x2 (w : World) (f : fid) :
  upright_1x2 (w_bm w) f ->
  Py.min (map (calc_length (w_bm w)) (face_edges (w_bm w) f)) = Some 1 /\
  Py.max (map (calc_length (w_bm w)) (face_edges (w_bm w) f)) = Some 2 /\
  fst (square_face f w) = Ok 2 /\
  forall e, In e (face_edges (w_bm (snd (square_face f w))) f) ->
            calc_length (w_bm (snd (square_face f w))) e = 2.
Proof.
  intros (a & b & c & d & e1 & e2 & e3 & e4 & s & t & HC & ND & Fv & Fe &
          J1 & J2 & J3 & J4 & Cb & Cc & Cd).
  set (bm := w_bm w) in *.
  destruct (vert_co bm a) as [ax ay az] eqn:Ca.
  destruct s as [sx sy sz], t as [tx ty tz].
  unfold vadd in Cb, Cc, Cd. rewrite Cb in Cc. simpl in Cb, Cc, Cd.
  assert (Ia : In a [a; b; c; d]) by (simpl; auto).
  assert (Ib : In b [a; b; c; d]) by (simpl; auto).
  assert (Ic : In c [a; b; c; d]) by (simpl; auto).
  assert (Id : In d [a; b; c; d]) by (simpl; auto).
  destruct HC as [[[Hs1 Hs2] [Ht1 [Ht2 Ht3]]] | [[Hs1 [Hs2 Hs3]] [Ht1 Ht2]]];
    simpl in Hs1, Hs2, Ht1, Ht2.
  - (* long edges e1, e3; short edges e2, e4 *)
    simpl in Ht3.
    assert (L1 : calc_length bm e1 = 2) by (rewrite (calc_length_joins bm e1 a b J1), Ca, Cb; apply vlength_is; [lra | simpl; nra]).
    assert (L2 : calc_length bm e2 = 1) by (rewrite (calc_length_joins bm e2 b c J2), Cb, Cc; apply vlength_is; [lra | simpl; nra]).
    assert (L3 : calc_length bm e3 = 2) by (rewrite (calc_length_joins bm e3 c d J3), Cc, Cd; apply vlength_is; [lra | simpl; nra]).
    assert (L4 : calc_length bm e4 = 1) by (rewrite (calc_length_joins bm e4 d a J4), Ca, Cd; apply vlength_is; [lra | simpl; nra]).
    assert (Emin : Py.min (map (calc_length bm) (face_edges bm f)) = Some 1).
    { rewrite Fe. simpl. rewrite L1, L2, L3, L4, Rmin_2_1, Rmin_1_2, Rmin_1_1. reflexivity. }
    assert (Emax : Py.max (map (calc_length bm) (face_edges bm f)) = Some 2).
    { rewrite Fe. simpl. rewrite L1, L2, L3, L4, Rmax_2_1, Rmax_2_2, Rmax_2_1. reflexivity. }
    assert (Ee : Py.last_item (filter (fun e => Py.Req_bool (calc_length bm e) 1)
                                      (face_edges bm f)) = Some e4).
    { rewrite Fe. simpl. rewrite L1, L2, L3, L4.
      rewrite (Req_bool_neq 2 1) by lra. rewrite Req_bool_refl. reflexivity. }
    assert (O : calc_edge_orient bm e4 = mkVector 0 0 1).
    { apply (calc_edge_orient_joins_vertical bm e4 d a J4). rewrite Ca, Cd. simpl. lra. }
    pose proof (square_face_run w f 2 1 e4 Emax Emin ltac:(lra) Ee) as Run.
    simpl in Run. fold bm in Run. rewrite O, orient_z_scale_vec in Run.
    rewrite Run. cbn [fst snd w_bm].
    split; [exact Emin | split; [exact Emax | split; [f_equal; lra |]]].
    destruct (ops_scale_topology bm (mkVector 1 1 (2 / 1))
                (vneg (calc_center_median bm f)) (face_verts bm f)) as [_ [-> _]].
    rewrite Fe, Fv. intros e [<- | [<- | [<- | [<- | []]]]].
    + rewrite (calc_length_after_z_scale bm _ _ _ e1 a b ND Ia Ib J1), Ca, Cb.
      apply vlength_is; [lra | simpl; nra].
    + rewrite (calc_length_after_z_scale bm _ _ _ e2 b c ND Ib Ic J2), Cb, Cc.
      apply vlength_is; [lra | simpl; nra].
    + rewrite (calc_length_after_z_scale bm _ _ _ e3 c d ND Ic Id J3), Cc, Cd.
      apply vlength_is; [lra | simpl; nra].
    + rewrite (calc_length_after_z_scale bm _ _ _ e4 d a ND Id Ia J4), Ca, Cd.
      apply vlength_is; [lra | simpl; nra].
  - (* short edges e1, e3; long edges e2, e4 *)
    simpl in Hs3.
    assert (L1 : calc_length bm e1 = 1) by (rewrite (calc_length_joins bm e1 a b J1), Ca, Cb; apply vlength_is; [lra | simpl; nra]).
    assert (L2 : calc_length bm e2 = 2) by (rewrite (calc_length_joins bm e2 b c J2), Cb, Cc; apply vlength_is; [lra | simpl; nra]).
    assert (L3 : calc_length bm e3 = 1) by (rewrite (calc_length_joins bm e3 c d J3), Cc, Cd; apply vlength_is; [lra | simpl; nra]).
    assert (L4 : calc_length bm e4 = 2) by (rewrite (calc_length_joins bm e4 d a J4), Ca, Cd; apply vlength_is; [lra | simpl; nra]).
    assert (Emin : Py.min (map (calc_length bm) (face_edges bm f)) = Some 1).
    { rewrite Fe. simpl. rewrite L1, L2, L3, L4, Rmin_1_2, Rmin_1_1, Rmin_1_2. reflexivity. }
    assert (Emax : Py.max (map (calc_length bm) (face_edges bm f)) = Some 2).
    { rewrite Fe. simpl. rewrite L1, L2, L3, L4, Rmax_1_2, Rmax_2_1, Rmax_2_2. reflexivity. }
    assert (Ee : Py.last_item (filter (fun e => Py.Req_bool (calc_length bm e) 1)
                                      (face_edges bm f)) = Some e3).
    { rewrite Fe. simpl. rewrite L1, L2, L3, L4.
      rewrite (Req_bool_neq 2 1) by lra. rewrite Req_bool_refl. reflexivity. }
    assert (O : calc_edge_orient bm e3 = mkVector 0 0 1).
    { apply (calc_edge_orient_joins_vertical bm e3 c d J3). rewrite Cc, Cd. simpl. lra. }
    pose proof (square_face_run w f 2 1 e3 Emax Emin ltac:(lra) Ee) as Run.
    simpl in Run. fold bm in Run. rewrite O, orient_z_scale_vec in Run.
    rewrite Run. cbn [fst snd w_bm].
    split; [exact Emin | split; [exact Emax | split; [f_equal; lra |]]].
    destruct (ops_scale_topology bm (mkVector 1 1 (2 / 1))
                (vneg (calc_center_median bm f)) (face_verts bm f)) as [_ [-> _]].
    rewrite Fe, Fv. intros e [<- | [<- | [<- | [<- | []]]]].
    + rewrite (calc_length_after_z_scale bm _ _ _ e1 a b ND Ia Ib J1), Ca, Cb.
      apply vlength_is; [lra | simpl; nra].
    + rewrite (calc_length_after_z_scale bm _ _ _ e2 b c ND Ib Ic J2), Cb, Cc.
      apply vlength_is; [lra | simpl; nra].
    + rewrite (calc_length_after_z_scale bm _ _ _ e3 c d ND Ic Id J3), Cc, Cd.
      apply vlength_is; [lra | simpl; nra].
    + rewrite (calc_length_after_z_scale bm _ _ _ e4 d a ND Id Ia J4), Ca, Cd.
      apply vlength_is; [lra | simpl; nra].
Qed.

Lemma upright_rect_is_upright_1x2 : upright_1x2 upright_rect 0%nat.
Proof.
  exists 0%nat, 1%nat, 2%nat, 3%nat, 0%nat, 1%nat, 2%nat, 3%nat,
         (mkVector 2 0 0), (mkVector 0 0 1).
  split.
  { left. unfold horizontal_of_length_2, vertical_unit. simpl. repeat split; lra. }
  split.
  { repeat constructor; simpl; intuition discriminate. }
  split; [reflexivity |]. split; [reflexivity |].
  unfold edge_joins.
  repeat (split; [left; reflexivity |]).
  unfold vadd; simpl. repeat split; f_equal; lra.
Qed.

Lemma square_face_upright_1x2_witness :
  fst (square_face 0%nat (mkWorld upright_rect [])) = Ok 2.
Proof.
  apply (square_face_upright_1x2 (mkWorld upright_rect []) 0%nat).
  exact upright_rect_is_upright_1x2.
Defined.

(** The lengths of the edges of a quad whose sides measure 2, 1, 2, 1
    and what [square_face] does with them. *)
Lemma square_face_2_1_2_1 (w : World) (f : fid) (e1 e2 e3 e4 : eid) :
  face_edges (w_bm w) f = [e1; e2; e3; e4] ->
  calc_length (w_bm w) e1 = 2 -> calc_length (w_bm w) e2 = 1 ->
  calc_length (w_bm w) e3 = 2 -> calc_length (w_bm w) e4 = 1 ->
  Py.min (map (calc_length (w_bm w)) (face_edges (w_bm w) f)) = Some 1 /\
  Py.max (map (calc_length (w_bm w)) (face_edges (w_bm w) f)) = Some 2 /\
  square_face f w =
  (Ok (2 / 1),
   mkWorld (ops_scale (w_bm w)
              (if Vector_eqb (calc_edge_orient (w_bm w) e4) (mkVector 1 0 0)
               then mkVector (2 / 1) 1 1
               else if Vector_eqb (calc_edge_orient (w_bm w) e4) (mkVector 0 1 0)
               then mkVector 1 (2 / 1) 1
               else if Vector_eqb (calc_edge_orient (w_bm w) e4) (mkVector 0 0 1)
               then mkVector 1 1 (2 / 1)
               else mkVector 1 1 1)
              (vneg (calc_center_median (w_bm w) f)) (face_verts (w_bm w) f))
           (w_log w ++
            [OpScale
               (if Vector_eqb (calc_edge_orient (w_bm w) e4) (mkVector 1 0 0)
                then mkVector (2 / 1) 1 1
                else if Vector_eqb (calc_edge_orient (w_bm w) e4) (mkVector 0 1 0)
                then mkVector 1 (2 / 1) 1
                else if Vector_eqb (calc_edge_orient (w_bm w) e4) (mkVector 0 0 1)
                then mkVector 1 1 (2 / 1)
                else mkVector 1 1 1)
               (vneg (calc_center_median (w_bm w) f)) (face_verts (w_bm w) f)])).
Proof.
  intros Fe L1 L2 L3 L4.
  assert (Emin : Py.min (map (calc_length (w_bm w)) (face_edges (w_bm w) f)) = Some 1).
  { rewrite Fe. simpl. rewrite L1, L2, L3, L4, Rmin_2_1, Rmin_1_2, Rmin_1_1. reflexivity. }
  assert (Emax : Py.max (map (calc_length (w_bm w)) (face_edges (w_bm w) f)) = Some 2).
  { rewrite Fe. simpl. rewrite L1, L2, L3, L4, Rmax_2_1, Rmax_2_2, Rmax_2_1. reflexivity. }
  split; [exact Emin | split; [exact Emax |]].
  apply (square_face_run w f 2 1 e4 Emax Emin); [lra |].
  rewrite Fe. simpl. rewrite L1, L2, L3, L4.
  rewrite (Req_bool_neq 2 1) by lra. rewrite Req_bool_refl. reflexivity.
Qed.

(** A 1 x 2 rectangle whose short edges are not along an axis is left
    as it is: the rectangle of the plane z = 0 with its long side
    along (3/5, 4/5, 0).  The shortest edge has no orientation, the
    scale is the identity: 2 is returned, and the edges keep the lengths
    2 and 1. *)
Lemma square_face_turned_rect_not_square :
  Py.min (map (calc_length turned_rect) (face_edges turned_rect 0%nat)) = Some 1 /\
  Py.max (map (calc_length turned_rect) (face_edges turned_rect 0%nat)) = Some 2 /\
  calc_edge_orient turned_rect 3%nat = mkVector 0 0 0 /\
  fst (square_face 0%nat (mkWorld turned_rect [])) = Ok 2 /\
  calc_length (w_bm (snd (square_face 0%nat (mkWorld turned_rect [])))) 0%nat = 2 /\
  calc_length (w_bm (snd (square_face 0%nat (mkWorld turned_rect [])))) 1%nat = 1.
Proof.
  assert (J0 : edge_joins turned_rect 0%nat 0%nat 1%nat) by (left; reflexivity).
  assert (J1 : edge_joins turned_rect 1%nat 1%nat 2%nat) by (left; reflexivity).
  assert (J2 : edge_joins turned_rect 2%nat 2%nat 3%nat) by (left; reflexivity).
  assert (J3 : edge_joins turned_rect 3%nat 3%nat 0%nat) by (left; reflexivity).
  assert (C0 : vert_co turned_rect 0%nat = mkVector 0 0 0) by reflexivity.
  assert (C1 : vert_co turned_rect 1%nat = mkVector (6 / 5) (8 / 5) 0) by reflexivity.
  assert (C2 : vert_co turned_rect 2%nat = mkVector (2 / 5) (11 / 5) 0) by reflexivity.
  assert (C3 : vert_co turned_rect 3%nat = mkVector (- 4 / 5) (3 / 5) 0) by reflexivity.
  assert (ND : NoDup [0; 1; 2; 3]%nat) by (repeat constructor; simpl; intuition discriminate).
  assert (L0 : calc_length turned_rect 0%nat = 2)
    by (rewrite (calc_length_joins _ _ _ _ J0), C0, C1; apply vlength_is; [lra | simpl; lra]).
  assert (L1 : calc_length turned_rect 1%nat = 1)
    by (rewrite (calc_length_joins _ _ _ _ J1), C1, C2; apply vlength_is; [lra | simpl; lra]).
  assert (L2 : calc_length turned_rect 2%nat = 2)
    by (rewrite (calc_length_joins _ _ _ _ J2), C2, C3; apply vlength_is; [lra | simpl; lra]).
  assert (L3 : calc_length turned_rect 3%nat = 1)
    by (rewrite (calc_length_joins _ _ _ _ J3), C3, C0; apply vlength_is; [lra | simpl; lra]).
  assert (O : calc_edge_orient turned_rect 3%nat = mkVector 0 0 0).
  { rewrite calc_edge_orient_cases, !coords_collapse_same_rounded.
    unfold same_roundedb.
    change (edge_verts turned_rect 3%nat) with (3%nat, 0%nat). cbn [fst snd].
    rewrite C0, C3. cbn [vx vy].
    rewrite (round_IZR 0 1).
    replace (- 4 / 5) with (IZR (-8) / 10) by lra.
    replace (3 / 5) with (IZR 6 / 10) by lra.
    rewrite !round_tenths.
    rewrite !Req_bool_neq by lra. reflexivity. }
  destruct (square_face_2_1_2_1 (mkWorld turned_rect []) 0%nat 0%nat 1%nat 2%nat 3%nat
              eq_refl L0 L1 L2 L3) as [Emin [Emax Run]].
  cbn [w_bm w_log] in Run. rewrite O, orient_none_scale_vec in Run.
  rewrite Run. cbn [fst snd w_bm].
  split; [exact Emin | split; [exact Emax | split; [exact O | split; [f_equal; lra |]]]].
  change (face_verts turned_rect 0%nat) with [0; 1; 2; 3]%nat.
  split.
  - rewrite (calc_length_after_z_scale turned_rect 1 _ _ 0%nat 0%nat 1%nat ND); simpl; auto.
    apply vlength_is; [lra | simpl; lra].
  - rewrite (calc_length_after_z_scale turned_rect 1 _ _ 1%nat 1%nat 2%nat ND); simpl; auto.
    apply vlength_is; [lra | simpl; lra].
Qed.

(** The same on a 1 x 2 rectangle of the plane z = 0 that follows the
    axes: its short edges run along Y, [calc_edge_orient] answers
    (0, 0, 1) for them, the scale acts on z alone, and the edges keep
    the lengths 2 and 1. *)
Example square_face_flat_rect_not_square :
  calc_edge_orient flat_rect 3%nat = mkVector 0 0 1 /\
  fst (square_face 0%nat (mkWorld flat_rect [])) = Ok 2 /\
  calc_length (w_bm (snd (square_face 0%nat (mkWorld flat_rect [])))) 0%nat = 2 /\
  calc_length (w_bm (snd (square_face 0%nat (mkWorld flat_rect [])))) 1%nat = 1.
Proof.
  assert (J0 : edge_joins flat_rect 0%nat 0%nat 1%nat) by (left; reflexivity).
  assert (J1 : edge_joins flat_rect 1%nat 1%nat 2%nat) by (left; reflexivity).
  assert (J2 : edge_joins flat_rect 2%nat 2%nat 3%nat) by (left; reflexivity).
  assert (J3 : edge_joins flat_rect 3%nat 3%nat 0%nat) by (left; reflexivity).
  assert (C0 : vert_co flat_rect 0%nat = mkVector 0 0 0) by reflexivity.
  assert (C1 : vert_co flat_rect 1%nat = mkVector 2 0 0) by reflexivity.
  assert (C2 : vert_co flat_rect 2%nat = mkVector 2 1 0) by reflexivity.
  assert (C3 : vert_co flat_rect 3%nat = mkVector 0 1 0) by reflexivity.
  assert (ND : NoDup [0; 1; 2; 3]%nat) by (repeat constructor; simpl; intuition discriminate).
  assert (L0 : calc_length flat_rect 0%nat = 2)
    by (rewrite (calc_length_joins _ _ _ _ J0), C0, C1; apply vlength_is; [lra | simpl; lra]).
  assert (L1 : calc_length flat_rect 1%nat = 1)
    by (rewrite (calc_length_joins _ _ _ _ J1), C1, C2; apply vlength_is; [lra | simpl; lra]).
  assert (L2 : calc_length flat_rect 2%nat = 2)
    by (rewrite (calc_length_joins _ _ _ _ J2), C2, C3; apply vlength_is; [lra | simpl; lra]).
  assert (L3 : calc_length flat_rect 3%nat = 1)
    by (rewrite (calc_length_joins _ _ _ _ J3), C3, C0; apply vlength_is; [lra | simpl; lra]).
  assert (O : calc_edge_orient flat_rect 3%nat = mkVector 0 0 1).
  { apply (calc_edge_orient_joins_vertical flat_rect 3%nat 3%nat 0%nat J3).
    rewrite C0, C3. reflexivity. }
  destruct (square_face_2_1_2_1 (mkWorld flat_rect []) 0%nat 0%nat 1%nat 2%nat 3%nat
              eq_refl L0 L1 L2 L3) as [Emin [Emax Run]].
  cbn [w_bm w_log] in Run. rewrite O, orient_z_scale_vec in Run.
  rewrite Run. cbn [fst snd w_bm].
  split; [exact O | split; [f_equal; lra |]].
  change (face_verts flat_rect 0%nat) with [0; 1; 2; 3]%nat.
  split.
  - rewrite (calc_length_after_z_scale flat_rect _ _ _ 0%nat 0%nat 1%nat ND); simpl; auto.
    apply vlength_is; [lra | simpl; lra].
  - rewrite (calc_length_after_z_scale flat_rect _ _ _ 1%nat 1%nat 2%nat ND); simpl; auto.
    apply vlength_is; [lra | simpl; lra].
Qed.

(** C4.  The 1 x 2 rectangle of the plane y = 0 with its short edges
    along X and its long edges along Z has least edge length 1 and
    greatest 2.  [calc_edge_orient] answers (0, 0, 1) for its short
    edge, so [square_face] returns 2 and stretches the face along Z:
    the long edges measure 4 afterwards and the short ones still 1. *)
Theorem square_face_tall_rect_becomes_1x4 :
  Py.min (map (calc_length tall_rect) (face_edges tall_rect 0%nat)) = Some 1 /\
  Py.max (map (calc_length tall_rect) (face_edges tall_rect 0%nat)) = Some 2 /\
  coords_collapse tall_rect vy 1 3%nat = true /\
  coords_collapse tall_rect vz 1 3%nat = true /\
  calc_edge_orient tall_rect 3%nat = mkVector 0 0 1 /\
  fst (square_face 0%nat (mkWorld tall_rect [])) = Ok 2 /\
  calc_length (w_bm (snd (square_face 0%nat (mkWorld tall_rect [])))) 0%nat = 4 /\
  calc_length (w_bm (snd (square_face 0%nat (mkWorld tall_rect [])))) 1%nat = 1 /\
  calc_length (w_bm (snd (square_face 0%nat (mkWorld tall_rect [])))) 2%nat = 4 /\
  calc_length (w_bm (snd (square_face 0%nat (mkWorld tall_rect [])))) 3%nat = 1.
Proof.
  assert (J0 : edge_joins tall_rect 0%nat 0%nat 1%nat) by (left; reflexivity).
  assert (J1 : edge_joins tall_rect 1%nat 1%nat 2%nat) by (left; reflexivity).
  assert (J2 : edge_joins tall_rect 2%nat 2%nat 3%nat) by (left; reflexivity).
  assert (J3 : edge_joins tall_rect 3%nat 3%nat 0%nat) by (left; reflexivity).
  assert (C0 : vert_co tall_rect 0%nat = mkVector 0 0 0) by reflexivity.
  assert (C1 : vert_co tall_rect 1%nat = mkVector 0 0 2) by reflexivity.
  assert (C2 : vert_co tall_rect 2%nat = mkVector 1 0 2) by reflexivity.
  assert (C3 : vert_co tall_rect 3%nat = mkVector 1 0 0) by reflexivity.
  assert (ND : NoDup [0; 1; 2; 3]%nat) by (repeat constructor; simpl; intuition discriminate).
  assert (L0 : calc_length tall_rect 0%nat = 2)
    by (rewrite (calc_length_joins _ _ _ _ J0), C0, C1; apply vlength_is; [lra | simpl; lra]).
  assert (L1 : calc_length tall_rect 1%nat = 1)
    by (rewrite (calc_length_joins _ _ _ _ J1), C1, C2; apply vlength_is; [lra | simpl; lra]).
  assert (L2 : calc_length tall_rect 2%nat = 2)
    by (rewrite (calc_length_joins _ _ _ _ J2), C2, C3; apply vlength_is; [lra | simpl; lra]).
  assert (L3 : calc_length tall_rect 3%nat = 1)
    by (rewrite (calc_length_joins _ _ _ _ J3), C3, C0; apply vlength_is; [lra | simpl; lra]).
  assert (Y : coords_collapse tall_rect vy 1 3%nat = true)
    by (apply coords_collapse_equal; reflexivity).
  assert (Z : coords_collapse tall_rect vz 1 3%nat = true)
    by (apply coords_collapse_equal; reflexivity).
  assert (O : calc_edge_orient tall_rect 3%nat = mkVector 0 0 1).
  { rewrite calc_edge_orient_cases, Y, orb_true_r. reflexivity. }
  destruct (square_face_2_1_2_1 (mkWorld tall_rect []) 0%nat 0%nat 1%nat 2%nat 3%nat
              eq_refl L0 L1 L2 L3) as [Emin [Emax Run]].
  cbn [w_bm w_log] in Run. rewrite O, orient_z_scale_vec in Run.
  rewrite Run. cbn [fst snd w_bm].
  split; [exact Emin | split; [exact Emax |]].
  split; [exact Y | split; [exact Z | split; [exact O | split; [f_equal; lra |]]]].
  change (face_verts tall_rect 0%nat) with [0; 1; 2; 3]%nat.
  repeat split.
  - rewrite (calc_length_after_z_scale tall_rect _ _ _ 0%nat 0%nat 1%nat ND); simpl; auto.
    apply vlength_is; [lra | simpl; lra].
  - rewrite (calc_length_after_z_scale tall_rect _ _ _ 1%nat 1%nat 2%nat ND); simpl; auto.
    apply vlength_is; [lra | simpl; lra].
  - rewrite (calc_length_after_z_scale tall_rect _ _ _ 2%nat 2%nat 3%nat ND); simpl; auto.
    apply vlength_is; [lra | simpl; lra].
  - rewrite (calc_length_after_z_scale tall_rect _ _ _ 3%nat 3%nat 0%nat ND); simpl; auto.
    apply vlength_is; [lra | simpl; lra].
Qed.

(** * Further properties *)

(** With no selected face [split_quad] does nothing but the mesh update
    before it fails. *)
Lemma split_quad_no_selection_unbound_aux `{BMeshOps} (w : World) (vertical : bool)
      (cuts : Z) :
  (forall f, In f (bm_faces (w_bm w)) -> face_select (w_bm w) f = false) ->
  split_quad vertical cuts w =
  (Raise UnboundLocalError, mkWorld (w_bm w) (w_log w ++ [OpUpdateEditMesh])).
Proof.
  intros N. unfold split_quad. unfold bind at 1. unfold get_bm at 1. cbn [w_bm].
  assert (E : filter (fun f => face_select (w_bm w) f) (bm_faces (w_bm w)) = []).
  { induction (bm_faces (w_bm w)) as [| f l IH]; [reflexivity |].
    simpl. rewrite (N f) by (now left). apply IH. intros g Hg. apply N. now right. }
  rewrite E. reflexivity.
Qed.


(** ** The horizontal classification *)

(** [filter_horizontal_edges] keeps, in order, exactly the edges whose
    two vertices have the same coordinate, rounded to 4 decimal places,
    on y when [normal.z] is non-zero and on z otherwise. *)
Theorem filter_horizontal_edges_table (bm : BMesh) (edges : list eid) (normal : Vector) :
  filter_horizontal_edges bm edges normal =
    filter (same_roundedb bm (horizontal_axis normal) 4) edges
  /\ (forall e, In e (filter_horizontal_edges bm edges normal) <->
                In e edges /\ same_rounded bm (horizontal_axis normal) 4 e).
Proof.
  assert (F : filter_horizontal_edges bm edges normal =
              filter (same_roundedb bm (horizontal_axis normal) 4) edges).
  { rewrite filter_horizontal_edges_filter.
    unfold horizontal_axis, Py.truthy.
    destruct (Req_dec_T (vz normal) 0) as [Z | NZ]; apply filter_ext; intros e;
      apply coords_collapse_same_rounded. }
  split; [exact F |].
  intros e. rewrite F, filter_In, same_roundedb_true_iff. reflexivity.
Qed.

(** ** filter_geom *)

(** [filter_geom] returns the elements of the type asked for in the
    order they have in the list: it keeps or drops a single element by
    its type and works through a list piece by piece.  Filtering twice
    by one type is filtering once, no edge is left among the vertices,
    and the three types share the list out. *)
Theorem filter_geom_partition (geom : list BMElem) :
  (forall ty x, filter_geom [x] ty = if isinstance x ty then [x] else []) /\
  (forall ty g1 g2, filter_geom (g1 ++ g2) ty = filter_geom g1 ty ++ filter_geom g2 ty) /\
  (forall ty g1 x g2 y g3,
      isinstance x ty = true -> isinstance y ty = true ->
      exists h1 h2 h3,
        filter_geom (g1 ++ x :: g2 ++ y :: g3) ty = h1 ++ x :: h2 ++ y :: h3) /\
  (forall ty x, In x (filter_geom geom ty) <-> In x geom /\ isinstance x ty = true) /\
  (forall ty, filter_geom (filter_geom geom ty) ty = filter_geom geom ty) /\
  (length (filter_geom geom BMVert) + length (filter_geom geom BMEdge) +
   length (filter_geom geom BMFace) = length geom)%nat /\
  filter_geom (filter_geom geom BMVert) BMEdge = [].
Proof.
  assert (App : forall ty g1 g2,
             filter_geom (g1 ++ g2) ty = filter_geom g1 ty ++ filter_geom g2 ty).
  { intros ty g1 g2. unfold filter_geom. apply filter_app. }
  split; [| split; [exact App | split; [| split; [| split; [| split]]]]].
  - intros ty x. unfold filter_geom. simpl. destruct (isinstance x ty); reflexivity.
  - intros ty g1 x g2 y g3 Hx Hy.
    exists (filter_geom g1 ty), (filter_geom g2 ty), (filter_geom g3 ty).
    rewrite App. change (x :: g2 ++ y :: g3) with ([x] ++ g2 ++ [y] ++ g3).
    rewrite !App. unfold filter_geom at 2 4. simpl. rewrite Hx, Hy. reflexivity.
  - intros ty x. unfold filter_geom. apply filter_In.
  - intros ty. unfold filter_geom. induction geom as [| x geom IH]; [reflexivity |].
    simpl. destruct (isinstance x ty) eqn:T; simpl; [rewrite T, IH |]; auto.
  - unfold filter_geom. induction geom as [| [v | e | f] geom IH]; simpl; lia.
  - unfold filter_geom. induction geom as [| [v | e | f] geom IH]; simpl; auto.
Qed.

(** ** select *)

Lemma select_topology (elements : list fid) (val : bool) (bm : BMesh) :
  bm_faces (select bm elements val) = bm_faces bm /\
  vert_co (select bm elements val) = vert_co bm /\
  face_edges (select bm elements val) = face_edges bm /\
  face_verts (select bm elements val) = face_verts bm.
Proof.
  revert bm. induction elements as [| el elements IH]; intros bm; [repeat split |].
  unfold select in *. simpl. destruct (IH (set_face_select bm el val)) as (A & B & C & D).
  rewrite A, B, C, D. repeat split.
Qed.

(** After [select(elements, val)] the flag of a face is [val] when the
    face is one of [elements] and is what it was otherwise. *)
Theorem select_sets_flags (elements : list fid) (val : bool) (bm : BMesh) (f : fid) :
  face_select (select bm elements val) f =
  if existsb (fun el => (el =? f)%nat) elements then val else face_select bm f.
Proof.
  revert bm. induction elements as [| el elements IH]; intros bm; [reflexivity |].
  unfold select in *. simpl fold_left. rewrite IH. simpl.
  rewrite (Nat.eqb_sym el f).
  destruct (existsb (fun el0 => (el0 =? f)%nat) elements);
    destruct (f =? el)%nat; reflexivity.
Qed.

(** Once every face of the mesh is deselected with [select], [split_quad]
    finds no face to work on and raises [UnboundLocalError]. *)
Theorem split_quad_after_deselect_all `{BMeshOps} (w : World) (vertical : bool) (cuts : Z) :
  fst (split_quad vertical cuts
         (mkWorld (select (w_bm w) (bm_faces (w_bm w)) false) (w_log w))) =
  Raise UnboundLocalError.
Proof.
  rewrite split_quad_no_selection_unbound_aux; [reflexivity |].
  cbn [w_bm]. destruct (select_topology (bm_faces (w_bm w)) false (w_bm w)) as [-> _].
  intros f I. rewrite select_sets_flags.
  assert (E : existsb (fun el => (el =? f)%nat) (bm_faces (w_bm w)) = true).
  { apply existsb_exists. exists f. split; [exact I | apply Nat.eqb_refl]. }
  now rewrite E.
Qed.

(** ** Medians *)

(** [calc_verts_median] fails on the empty list, where [reduce] has
    nothing to start from, and only there. *)
Theorem calc_verts_median_fails_iff_empty (bm : BMesh) (verts : list vid) :
  calc_verts_median bm verts = None <-> verts = [].
Proof.
  unfold calc_verts_median. destruct verts as [| v verts]; simpl; split; intros E;
    solve [reflexivity | discriminate].
Qed.

(** ** calc_face_dimensions *)

Lemma fold_Rmin_lower (l : list R) (a : R) :
  fold_left Rmin l a <= a /\ forall x, In x l -> fold_left Rmin l a <= x.
Proof.
  revert a. induction l as [| b l IH]; intros a; simpl.
  - split; [lra | contradiction].
  - destruct (IH (Rmin a b)) as [A B].
    pose proof (Rmin_l a b). pose proof (Rmin_r a b).
    split; [lra |]. intros x [<- | I]; [lra | auto].
Qed.

Lemma fold_Rmax_upper (l : list R) (a : R) :
  a <= fold_left Rmax l a /\ forall x, In x l -> x <= fold_left Rmax l a.
Proof.
  revert a. induction l as [| b l IH]; intros a; simpl.
  - split; [lra | contradiction].
  - destruct (IH (Rmax a b)) as [A B].
    pose proof (Rmax_l a b). pose proof (Rmax_r a b).
    split; [lra |]. intros x [<- | I]; [lra | auto].
Qed.

Lemma fold_Rmax_In (l : list R) (a : R) : In (fold_left Rmax l a) (a :: l).
Proof.
  revert a. induction l as [| b l IH]; intros a; simpl.
  - now left.
  - destruct (IH (Rmax a b)) as [E | I]; [| auto].
    rewrite <- E. unfold Rmax. destruct (Rle_dec a b); auto.
Qed.

(** [max(l) - min(l)] on a list with an element: the extent of the
    list. *)
Lemma max_minus_min_extent (l : list R) :
  l <> [] ->
  exists d,
    max_minus_min l = Ok d /\
    (forall x y, In x l -> In y l -> x - y <= d) /\
    (exists x y, In x l /\ In y l /\ d = x - y).
Proof.
  destruct l as [| a l]; [congruence |]. intros _.
  exists (fold_left Rmax l a - fold_left Rmin l a).
  split; [reflexivity |].
  destruct (fold_Rmin_lower l a) as [Ma Ml]. destruct (fold_Rmax_upper l a) as [Xa Xl].
  split.
  - intros x y [<- | Ix] [<- | Iy].
    + lra.
    + specialize (Ml y Iy). lra.
    + specialize (Xl x Ix). lra.
    + specialize (Xl x Ix). specialize (Ml y Iy). lra.
  - exists (fold_left Rmax l a), (fold_left Rmin l a).
    split; [apply fold_Rmax_In | split; [apply fold_Rmin_In | reflexivity]].
Qed.

Lemma max_minus_min_empty : max_minus_min [] = Raise ValueError.
Proof. reflexivity. Qed.

Lemma max_minus_min_nonneg (l : list R) (d : R) : max_minus_min l = Ok d -> 0 <= d.
Proof.
  destruct l as [| a l]; [discriminate |].
  intros E. destruct (max_minus_min_extent (a :: l)) as (d' & E' & B & _); [discriminate |].
  rewrite E in E'. injection E' as <-.
  specialize (B a a (or_introl eq_refl) (or_introl eq_refl)). lra.
Qed.

Lemma max_by_some (key : Vector -> R) (l : list Vector) :
  l <> [] -> exists v, max_by key l = Some v.
Proof. destruct l; [congruence | intros _; eexists; reflexivity]. Qed.

Lemma min_by_some (key : Vector -> R) (l : list Vector) :
  l <> [] -> exists v, min_by key l = Some v.
Proof. destruct l; [congruence | intros _; eexists; reflexivity]. Qed.

Lemma vlength_nonneg (v : Vector) : 0 <= vlength v.
Proof. apply sqrt_pos. Qed.

(** [calc_face_dimensions] raises [ValueError] for a face with no
    vertex and for no other; for every other face it returns a width
    and a height that are not negative. *)
Theorem calc_face_dimensions_defined (bm : BMesh) (face : fid) :
  match calc_face_dimensions bm face with
  | Ok (width, height) => face_verts bm face <> [] /\ 0 <= width /\ 0 <= height
  | Raise e => e = ValueError /\ face_verts bm face = []
  end.
Proof.
  unfold calc_face_dimensions.
  destruct (face_verts bm face) as [| v verts] eqn:Fv.
  - simpl.
    destruct (Py.truthy (vx (face_normal bm face)));
      destruct (Py.truthy (vy (face_normal bm face))); simpl; auto.
  - set (cos := map (vert_co bm) (v :: verts)).
    assert (NE : forall axis : Vector -> R, map axis cos <> []) by (intros axis; discriminate).
    destruct (max_minus_min_extent (map vz cos) (NE vz)) as (h & Eh & _).
    assert (Hh := max_minus_min_nonneg _ _ Eh).
    destruct (max_minus_min_extent (map vy cos) (NE vy)) as (wy & Ey & _).
    assert (Hy := max_minus_min_nonneg _ _ Ey).
    destruct (max_minus_min_extent (map vx cos) (NE vx)) as (wx & Ex & _).
    assert (Hx := max_minus_min_nonneg _ _ Ex).
    destruct (max_by_some vx cos) as [v1 E1]; [discriminate |].
    destruct (min_by_some vx cos) as [v2 E2]; [discriminate |].
    rewrite Eh, Ey, Ex, E1, E2.
    pose proof (vlength_nonneg (vsub v1 v2)).
    destruct (Py.truthy (vx (face_normal bm face)));
      destruct (Py.truthy (vy (face_normal bm face))); simpl;
      (split; [discriminate | split; [assumption || lra | assumption]]).
Qed.

Lemma calc_face_dimensions_height (bm : BMesh) (face : fid) (width height : R) :
  calc_face_dimensions bm face = Ok (width, height) ->
  max_minus_min (map vz (map (vert_co bm) (face_verts bm face))) = Ok height.
Proof.
  unfold calc_face_dimensions.
  match goal with
  | |- match ?wd with _ => _ end = _ -> _ => destruct wd as [w0 | e0]
  end; [| discriminate].
  destruct (max_minus_min (map vz (map (vert_co bm) (face_verts bm face)))) as [h0 | e0];
    [| discriminate].
  intros E. injection E as _ <-. reflexivity.
Qed.

Lemma max_minus_min_ok_nonempty (l : list R) (d : R) : max_minus_min l = Ok d -> l <> [].
Proof. destruct l; [discriminate | discriminate]. Qed.

(** The height returned by [calc_face_dimensions] is the extent of the
    face along Z: no two vertices of the face are further apart in z,
    and two of them are that far apart. *)
Theorem calc_face_dimensions_height_extent (bm : BMesh) (face : fid) (width height : R) :
  calc_face_dimensions bm face = Ok (width, height) ->
  (forall u v, In u (face_verts bm face) -> In v (face_verts bm face) ->
               vz (vert_co bm u) - vz (vert_co bm v) <= height) /\
  (exists u v, In u (face_verts bm face) /\ In v (face_verts bm face) /\
               height = vz (vert_co bm u) - vz (vert_co bm v)).
Proof.
  intros E. apply calc_face_dimensions_height in E.
  destruct (max_minus_min_extent _ (max_minus_min_ok_nonempty _ _ E))
    as (d & Ed & B & (x & y & Ix & Iy & Exy)).
  rewrite E in Ed. injection Ed as <-.
  split.
  - intros u v Iu Iv. apply B; rewrite map_map; apply in_map_iff; eauto.
  - rewrite map_map in Ix, Iy. apply in_map_iff in Ix, Iy.
    destruct Ix as (u & <- & Iu), Iy as (v & <- & Iv). eauto.
Qed.

(** For a face looking along X the width is the extent of the face
    along Y, and for a face looking along Y its extent along X. *)
Theorem calc_face_dimensions_width_extent (bm : BMesh) (face : fid) (width height : R)
        (axis : Vector -> R) :
  calc_face_dimensions bm face = Ok (width, height) ->
  (vx (face_normal bm face) <> 0 /\ vy (face_normal bm face) = 0 /\ axis = vy) \/
  (vy (face_normal bm face) <> 0 /\ vx (face_normal bm face) = 0 /\ axis = vx) ->
  (forall u v, In u (face_verts bm face) -> In v (face_verts bm face) ->
               axis (vert_co bm u) - axis (vert_co bm v) <= width) /\
  (exists u v, In u (face_verts bm face) /\ In v (face_verts bm face) /\
               width = axis (vert_co bm u) - axis (vert_co bm v)).
Proof.
  intros E H.
  assert (W : max_minus_min (map axis (map (vert_co bm) (face_verts bm face))) = Ok width).
  { unfold calc_face_dimensions in E. unfold Py.truthy in E.
    destruct H as [(Nx & Zy & ->) | (Ny & Zx & ->)].
    - destruct (Req_dec_T (vx (face_normal bm face)) 0); [contradiction |].
      destruct (Req_dec_T (vy (face_normal bm face)) 0); [| contradiction].
      simpl in E.
      destruct (max_minus_min (map vy (map (vert_co bm) (face_verts bm face))));
        [| discriminate].
      destruct (max_minus_min (map vz (map (vert_co bm) (face_verts bm face))));
        [| discriminate].
      injection E as -> _. reflexivity.
    - destruct (Req_dec_T (vx (face_normal bm face)) 0); [| contradiction].
      destruct (Req_dec_T (vy (face_normal bm face)) 0); [contradiction |].
      simpl in E.
      destruct (max_minus_min (map vx (map (vert_co bm) (face_verts bm face))));
        [| discriminate].
      destruct (max_minus_min (map vz (map (vert_co bm) (face_verts bm face))));
        [| discriminate].
      injection E as -> _. reflexivity. }
  destruct (max_minus_min_extent _ (max_minus_min_ok_nonempty _ _ W))
    as (d & Ed & B & (x & y & Ix & Iy & Exy)).
  rewrite W in Ed. injection Ed as <-.
  split.
  - intros u v Iu Iv. apply B; rewrite map_map; apply in_map_iff; eauto.
  - rewrite map_map in Ix, Iy. apply in_map_iff in Ix, Iy.
    destruct Ix as (u & <- & Iu), Iy as (v & <- & Iv). eauto.
Qed.

(** A face whose normal has no x and no y component, a floor or a
    ceiling, is given the width 0 whatever its shape. *)
Theorem calc_face_dimensions_flat_width (bm : BMesh) (face : fid) (width height : R) :
  calc_face_dimensions bm face = Ok (width, height) ->
  vx (face_normal bm face) = 0 -> vy (face_normal bm face) = 0 ->
  width = 0.
Proof.
  intros E Zx Zy. unfold calc_face_dimensions, Py.truthy in E.
  destruct (Req_dec_T (vx (face_normal bm face)) 0); [| contradiction].
  destruct (Req_dec_T (vy (face_normal bm face)) 0); [| contradiction].
  simpl in E.
  destruct (max_minus_min (map vz (map (vert_co bm) (face_verts bm face))));
    [| discriminate].
  injection E as <- _. reflexivity.
Qed.

(** The face looking along +X over y in [0, 2] and z in [0, 3] measures
    2 by 3. *)
Example calc_face_dimensions_wall_x : calc_face_dimensions wall_x 0%nat = Ok (2, 3).
Proof.
  unfold calc_face_dimensions, Py.truthy.
  change (face_normal wall_x 0%nat) with (mkVector 1 0 0). cbn [vx vy].
  destruct (Req_dec_T 1 0); [lra |]. destruct (Req_dec_T 0 0); [| congruence].
  cbn [andb negb].
  change (map (vert_co wall_x) (face_verts wall_x 0%nat))
    with [mkVector 0 0 0; mkVector 0 2 0; mkVector 0 2 3; mkVector 0 0 3].
  unfold max_minus_min. cbn [map vy vz Py.max Py.min fold_left].
  replace (Rmax (Rmax (Rmax 0 2) 2) 0) with 2
    by (unfold Rmax; repeat destruct Rle_dec; lra).
  replace (Rmin (Rmin (Rmin 0 2) 2) 0) with 0
    by (unfold Rmin; repeat destruct Rle_dec; lra).
  replace (Rmax (Rmax (Rmax 0 0) 3) 3) with 3
    by (unfold Rmax; repeat destruct Rle_dec; lra).
  replace (Rmin (Rmin (Rmin 0 0) 3) 3) with 0
    by (unfold Rmin; repeat destruct Rle_dec; lra).
  repeat f_equal; lra.
Qed.

Lemma calc_face_dimensions_height_extent_witness :
  vz (vert_co wall_x 2%nat) - vz (vert_co wall_x 0%nat) <= 3.
Proof.
  apply (calc_face_dimensions_height_extent wall_x 0%nat 2 3
           calc_face_dimensions_wall_x); simpl; auto.
Defined.

Lemma calc_face_dimensions_width_extent_witness :
  vy (vert_co wall_x 1%nat) - vy (vert_co wall_x 0%nat) <= 2.
Proof.
  apply (calc_face_dimensions_width_extent wall_x 0%nat 2 3 vy
           calc_face_dimensions_wall_x).
  - left. simpl. repeat split; lra.
  - simpl; auto.
  - simpl; auto.
Defined.

Example calc_face_dimensions_flat_rect : calc_face_dimensions flat_rect 0%nat = Ok (0, 0).
Proof.
  unfold calc_face_dimensions, Py.truthy.
  change (face_normal flat_rect 0%nat) with (mkVector 0 0 1). cbn [vx vy].
  destruct (Req_dec_T 0 0); [| congruence]. cbn [andb negb].
  change (map (vert_co flat_rect) (face_verts flat_rect 0%nat))
    with [mkVector 0 0 0; mkVector 2 0 0; mkVector 2 1 0; mkVector 0 1 0].
  unfold max_minus_min. cbn [map vz Py.max Py.min fold_left].
  replace (Rmax (Rmax (Rmax 0 0) 0) 0) with 0
    by (unfold Rmax; repeat destruct Rle_dec; lra).
  replace (Rmin (Rmin (Rmin 0 0) 0) 0) with 0
    by (unfold Rmin; repeat destruct Rle_dec; lra).
  repeat f_equal; lra.
Qed.

Lemma calc_face_dimensions_flat_width_witness :
  calc_face_dimensions flat_rect 0%nat = Ok (0, 0) /\ 0 = 0.
Proof.
  split; [exact calc_face_dimensions_flat_rect |].
  apply (calc_face_dimensions_flat_width flat_rect 0%nat 0 0
           calc_face_dimensions_flat_rect); reflexivity.
Defined.

(** ** face_with_verts as a search *)

Lemma all_among_incl (verts fverts : list vid) :
  all_among verts fverts = true <-> incl fverts verts.
Proof.
  unfold all_among. rewrite forallb_forall. split.
  - intros H v Iv. specialize (H v Iv). apply existsb_exists in H.
    destruct H as (u & Iu & E). apply Nat.eqb_eq in E. now subst.
  - intros H v Iv. apply existsb_exists. exists v. split; [now apply H | apply Nat.eqb_refl].
Qed.

(** For a list without duplicates the length test of [face_with_verts]
    is the test that the face has no vertex outside the list. *)
Lemma length_test_all_among (fverts verts : list vid) :
  NoDup verts ->
  (length (nodup Nat.eq_dec (fverts ++ verts)) =? length verts)%nat =
  all_among verts fverts.
Proof.
  intros ND.
  destruct (all_among verts fverts) eqn:A.
  - apply all_among_incl in A. apply Nat.eqb_eq. apply Nat.le_antisymm.
    + apply NoDup_incl_length; [apply NoDup_nodup |].
      intros v Iv. apply nodup_In, in_app_or in Iv. destruct Iv; auto.
    + apply NoDup_incl_length; [exact ND |].
      intros v Iv. apply nodup_In, in_or_app. now right.
  - apply Nat.eqb_neq. intros L.
    apply (length_test_incl _ _ ND), all_among_incl in L. congruence.
Qed.

(** For a list without duplicates [face_with_verts] returns the first
    face of [bm.faces] all of whose vertices are in the list, and the
    default when there is no such face. *)
Theorem face_with_verts_first_face_among (bm : BMesh) (verts : list vid)
        (default : option fid) :
  NoDup verts ->
  face_with_verts bm verts default =
  match find (fun f => all_among verts (face_verts bm f)) (bm_faces bm) with
  | Some f => Some f
  | None => default
  end.
Proof.
  intros ND. unfold face_with_verts.
  induction (bm_faces bm) as [| f faces IH]; [reflexivity |].
  simpl. rewrite (length_test_all_among _ _ ND).
  destruct (all_among verts (face_verts bm f)); [reflexivity | exact IH].
Qed.

Lemma face_with_verts_first_face_among_witness :
  face_with_verts quad_and_vertex [3; 2; 1; 0]%nat None = Some 0%nat.
Proof.
  rewrite (face_with_verts_first_face_among quad_and_vertex [3; 2; 1; 0]%nat None).
  - reflexivity.
  - repeat constructor; simpl; intuition discriminate.
Defined.

(** With an empty list of vertices, and faces that all have a vertex,
    [face_with_verts] finds nothing and answers the default. *)
Theorem face_with_verts_no_verts (bm : BMesh) (default : option fid) :
  (forall f, In f (bm_faces bm) -> face_verts bm f <> []) ->
  face_with_verts bm [] default = default.
Proof.
  intros H. unfold face_with_verts.
  induction (bm_faces bm) as [| f faces IH]; [reflexivity |].
  simpl. rewrite (length_test_all_among _ _ (NoDup_nil vid)).
  assert (Hf := H f (or_introl eq_refl)).
  destruct (face_verts bm f) as [| v l]; [congruence |].
  simpl. apply IH. intros g I. apply H. now right.
Qed.

Lemma face_with_verts_no_verts_witness :
  face_with_verts unit_quad [] None = None.
Proof.
  apply (face_with_verts_no_verts unit_quad None).
  intros f [<- | []]. discriminate.
Defined.

(** ** What [square_face] changes *)

(** Either [square_face] fails, and the world is as it was, or it makes
    one scale call on the vertices of the face, in the space centred on
    the median of the face and with the vector (1, 1, k) or (1, 1, 1),
    where k is the factor it returns. *)
Lemma square_face_outcome (w : World) (f : fid) :
  (exists e, square_face f w = (Raise e, w)) \/
  (exists k vec,
      (vec = mkVector 1 1 k \/ vec = mkVector 1 1 1) /\
      square_face f w =
      (Ok k,
       mkWorld (ops_scale (w_bm w) vec (vneg (calc_center_median (w_bm w) f))
                          (face_verts (w_bm w) f))
               (w_log w ++ [OpScale vec (vneg (calc_center_median (w_bm w) f))
                                    (face_verts (w_bm w) f)]))).
Proof.
  destruct (Py.max (map (calc_length (w_bm w)) (face_edges (w_bm w) f)))
    as [mx |] eqn:Emax.
  2: { left. exists ValueError. unfold square_face, bind, get_bm. cbn [w_bm].
       rewrite Emax. reflexivity. }
  destruct (Py.min (map (calc_length (w_bm w)) (face_edges (w_bm w) f)))
    as [mn |] eqn:Emin.
  2: { left. exists ValueError. unfold square_face, bind, get_bm. cbn [w_bm].
       rewrite Emax, Emin. reflexivity. }
  destruct (Req_dec_T mn 0) as [Z | NZ].
  { left. exists ZeroDivisionError. unfold square_face, bind, get_bm. cbn [w_bm].
    rewrite Emax, Emin. simpl. unfold py_div.
    destruct (Req_dec_T mn 0); [reflexivity | contradiction]. }
  destruct (min_edge_exists _ _ _ Emin) as [e Ee].
  right.
  pose proof (square_face_run w f mx mn e Emax Emin NZ Ee) as Run. cbn zeta in Run.
  destruct (calc_edge_orient_range (w_bm w) e) as [O | O]; rewrite O in Run.
  - rewrite orient_z_scale_vec in Run. exists (mx / mn), (mkVector 1 1 (mx / mn)).
    split; [now left | exact Run].
  - rewrite orient_none_scale_vec in Run. exists (mx / mn), (mkVector 1 1 1).
    split; [now right | exact Run].
Qed.

Lemma ops_scale_fields (bm : BMesh) (vec t : Vector) (verts : list vid) :
  bm_verts (ops_scale bm vec t verts) = bm_verts bm /\
  bm_edges (ops_scale bm vec t verts) = bm_edges bm /\
  bm_faces (ops_scale bm vec t verts) = bm_faces bm /\
  face_normal (ops_scale bm vec t verts) = face_normal bm /\
  face_select (ops_scale bm vec t verts) = face_select bm.
Proof.
  revert bm. induction verts as [| v verts IH]; intros bm; [repeat split |].
  rewrite ops_scale_cons.
  destruct (IH (set_vert_co bm v (scale_co vec t (vert_co bm v)))) as (A & B & C & D & E).
  rewrite A, B, C, D, E. repeat split.
Qed.

(** A scale whose x and y factors are 1 moves no vertex in x or y. *)
Lemma ops_scale_z_keeps_xy (k : R) (t : Vector) (verts : list vid) (bm : BMesh) (v : vid) :
  vx (vert_co (ops_scale bm (mkVector 1 1 k) t verts) v) = vx (vert_co bm v) /\
  vy (vert_co (ops_scale bm (mkVector 1 1 k) t verts) v) = vy (vert_co bm v).
Proof.
  revert bm. induction verts as [| u verts IH]; intros bm; [split; reflexivity |].
  rewrite ops_scale_cons.
  destruct (IH (set_vert_co bm u (scale_co (mkVector 1 1 k) t (vert_co bm u)))) as [X Y].
  rewrite X, Y. simpl. destruct (v =? u)%nat eqn:E.
  - apply Nat.eqb_eq in E. subst u. unfold scale_co, vsub, vscale, vadd. simpl.
    split; ring.
  - split; reflexivity.
Qed.

(** [square_face] changes nothing in the mesh but z coordinates: the
    lists of elements, the ends of the edges, the vertices and edges of
    the faces, the normals and the selection are as they were, and no
    vertex has moved in x or in y. *)
Theorem square_face_moves_z_only (w : World) (f : fid) (v : vid) :
  bm_verts (w_bm (snd (square_face f w))) = bm_verts (w_bm w) /\
  bm_edges (w_bm (snd (square_face f w))) = bm_edges (w_bm w) /\
  bm_faces (w_bm (snd (square_face f w))) = bm_faces (w_bm w) /\
  edge_verts (w_bm (snd (square_face f w))) = edge_verts (w_bm w) /\
  face_verts (w_bm (snd (square_face f w))) = face_verts (w_bm w) /\
  face_edges (w_bm (snd (square_face f w))) = face_edges (w_bm w) /\
  face_normal (w_bm (snd (square_face f w))) = face_normal (w_bm w) /\
  face_select (w_bm (snd (square_face f w))) = face_select (w_bm w) /\
  vx (vert_co (w_bm (snd (square_face f w))) v) = vx (vert_co (w_bm w) v) /\
  vy (vert_co (w_bm (snd (square_face f w))) v) = vy (vert_co (w_bm w) v).
Proof.
  destruct (square_face_outcome w f) as [[e E] | (k & vec & Hv & E)]; rewrite E.
  - simpl. repeat split.
  - cbn [snd w_bm].
    destruct (ops_scale_fields (w_bm w) vec (vneg (calc_center_median (w_bm w) f))
                (face_verts (w_bm w) f)) as (A & B & C & D & G).
    destruct (ops_scale_topology (w_bm w) vec (vneg (calc_center_median (w_bm w) f))
                (face_verts (w_bm w) f)) as (T1 & T2 & T3).
    rewrite A, B, C, D, G, T1, T2, T3.
    destruct Hv as [-> | ->];
      match goal with
      | |- context [ops_scale ?b (mkVector 1 1 ?z) ?t ?l] =>
          destruct (ops_scale_z_keeps_xy z t l b v) as [X Y]
      end; rewrite X, Y; repeat split.
Qed.

(** When [square_face] fails nothing has been done: the mesh and the
    trace are as they were. *)
Theorem square_face_failure_leaves_world (w : World) (f : fid) (e : PyError) :
  fst (square_face f w) = Raise e -> snd (square_face f w) = w.
Proof.
  destruct (square_face_outcome w f) as [[e' E] | (k & vec & Hv & E)]; rewrite E.
  - reflexivity.
  - discriminate.
Qed.

(** On the pinched quad the least edge length is 0 and [square_face]
    raises [ZeroDivisionError]. *)
Example square_face_pinched_quad_fails :
  fst (square_face 0%nat (mkWorld pinched_quad [])) = Raise ZeroDivisionError.
Proof.
  assert (J0 : edge_joins pinched_quad 0%nat 0%nat 1%nat) by (left; reflexivity).
  assert (J1 : edge_joins pinched_quad 1%nat 1%nat 2%nat) by (left; reflexivity).
  assert (J2 : edge_joins pinched_quad 2%nat 2%nat 3%nat) by (left; reflexivity).
  assert (J3 : edge_joins pinched_quad 3%nat 3%nat 0%nat) by (left; reflexivity).
  assert (C0 : vert_co pinched_quad 0%nat = mkVector 0 0 0) by reflexivity.
  assert (C1 : vert_co pinched_quad 1%nat = mkVector 1 0 0) by reflexivity.
  assert (C2 : vert_co pinched_quad 2%nat = mkVector 1 0 0) by reflexivity.
  assert (C3 : vert_co pinched_quad 3%nat = mkVector 0 0 0) by reflexivity.
  assert (L0 : calc_length pinched_quad 0%nat = 1)
    by (rewrite (calc_length_joins _ _ _ _ J0), C0, C1; apply vlength_is; [lra | simpl; lra]).
  assert (L1 : calc_length pinched_quad 1%nat = 0)
    by (rewrite (calc_length_joins _ _ _ _ J1), C1, C2; apply vlength_is; [lra | simpl; lra]).
  assert (L2 : calc_length pinched_quad 2%nat = 1)
    by (rewrite (calc_length_joins _ _ _ _ J2), C2, C3; apply vlength_is; [lra | simpl; lra]).
  assert (L3 : calc_length pinched_quad 3%nat = 0)
    by (rewrite (calc_length_joins _ _ _ _ J3), C3, C0; apply vlength_is; [lra | simpl; lra]).
  rewrite (square_face_result (mkWorld pinched_quad []) 0%nat 1 0).
  - destruct (Req_dec_T 0 0); [reflexivity | congruence].
  - change (face_edges (w_bm (mkWorld pinched_quad [])) 0%nat) with [0; 1; 2; 3]%nat.
    cbn [w_bm map Py.max fold_left]. rewrite L0, L1, L2, L3.
    f_equal. unfold Rmax. repeat destruct Rle_dec; lra.
  - change (face_edges (w_bm (mkWorld pinched_quad [])) 0%nat) with [0; 1; 2; 3]%nat.
    cbn [w_bm map Py.min fold_left]. rewrite L0, L1, L2, L3.
    f_equal. unfold Rmin. repeat destruct Rle_dec; lra.
Qed.

Lemma square_face_failure_leaves_world_witness :
  snd (square_face 0%nat (mkWorld pinched_quad [])) = mkWorld pinched_quad [].
Proof.
  apply (square_face_failure_leaves_world (mkWorld pinched_quad []) 0%nat
           ZeroDivisionError).
  exact square_face_pinched_quad_fails.
Defined.


(** ** The single passes of [split] *)

(** The cross product of a normal with the Z axis has no z component,
    so the scale vector of the horizontal pass has the z factor 1. *)
Lemma horizontal_scale_vector_z (normal : Vector) (shorizontal : R) :
  (if Py.truthy (vz (vcross normal (mkVector 0 0 1)))
   then Rabs (vz (vcross normal (mkVector 0 0 1))) * shorizontal
   else 1) = 1.
Proof.
  unfold vcross, Py.truthy. cbn [vx vy vz].
  destruct (Req_dec_T (vx normal * 0 - vy normal * 0) 0) as [_ | N]; [reflexivity |].
  exfalso. apply N. ring.
Qed.

(** A horizontal-only split (vertical ratio 1 or more, horizontal ratio
    below 1) does not raise and calls four operators: the subdivision
    in 2 cuts of the edges of the face whose ends share z rounded to 1
    place, a scale of the new vertices about the median of the face
    that does not act along Z, and two translations of the new
    vertices, by (offx, offy, 0) and by (0, 0, offz).  [remove_doubles]
    is not called.  The face returned is looked up in the final mesh
    from the new vertices. *)
Theorem split_horizontal_only `{BMeshOps} `{PySets} (w : World) (face : fid)
        (svertical shorizontal offx offy offz : R) :
  1 <= svertical -> shorizontal * 3 < 3 ->
  let bm1 := set_face_select (w_bm w) face false in
  let median := calc_center_median bm1 face in
  let edges := filter (coords_collapse bm1 vz 1) (face_edges bm1 face) in
  let verts :=
    as_verts (filter_geom (geom_inner (snd (subdivide_edges bm1 edges 2))) BMVert) in
  exists vec bm',
    vz vec = 1 /\
    split face svertical shorizontal offx offy offz w =
    (Ok (face_with_verts bm' verts None),
     mkWorld bm'
       (w_log w ++ [OpSubdivideEdges edges 2;
                    OpScale vec (vneg median) verts;
                    OpTranslate (mkVector offx offy 0) verts;
                    OpTranslate (mkVector 0 0 offz) verts])).
Proof.
  intros V Hz bm1 median edges verts. unfold split.
  rewrite (Rlt_bool_false (svertical * 3) 3) by lra.
  rewrite (Rlt_bool_true (shorizontal * 3) 3) by assumption.
  unfold split_offsets, split_horizontal, op_subdivide_edges, op_scale, op_translate,
    update_bm, bind, get_bm, ret. cbn [w_bm w_log negb andb].
  fold bm1. fold median. fold edges.
  subst verts. destruct (subdivide_edges bm1 edges 2) as [bm2 res]. cbn [fst snd w_bm w_log].
  eexists. eexists. split; [| rewrite app_nil_r, <- !app_assoc; reflexivity].
  cbn [vz]. apply horizontal_scale_vector_z.
Qed.

Lemma split_horizontal_only_witness :
  exists r, fst (split (H := idle_ops) (H0 := insertion_order) 0%nat 1 (1 / 2) 0 0 0 (mkWorld unit_quad [])) = Ok r.
Proof.
  destruct (split_horizontal_only (H := idle_ops) (H0 := insertion_order) (mkWorld unit_quad []) 0%nat
              1 (1 / 2) 0 0 0) as (vec & bm' & _ & E); [lra | lra |].
  rewrite E. eexists. reflexivity.
Defined.

(** Among the elements of [l], those not in the sublist passing [p] are
    those failing [p]. *)
Lemma not_among_filter (p : nat -> bool) (l : list nat) (e : nat) :
  In e l ->
  negb (existsb (fun o => (o =? e)%nat) (filter p l)) = negb (p e).
Proof.
  intros I. f_equal. destruct (p e) eqn:P.
  - apply existsb_exists. exists e. split; [| apply Nat.eqb_refl].
    apply filter_In. auto.
  - destruct (existsb _ _) eqn:X; [| reflexivity].
    apply existsb_exists in X. destruct X as (o & Io & Eo).
    apply Nat.eqb_eq in Eo. subst o. apply filter_In in Io. destruct Io. congruence.
Qed.

Lemma face_with_verts_is_face (bm : BMesh) (verts : list vid) (f : fid) :
  face_with_verts bm verts None = Some f ->
  existsb (fun g => (g =? f)%nat) (bm_faces bm) = true.
Proof.
  intros E. unfold face_with_verts in E.
  destruct (face_with_verts_loop_found bm (bm_faces bm) verts None f E) as [I _];
    [discriminate |].
  apply existsb_exists. exists f. split; [exact I | apply Nat.eqb_refl].
Qed.

(** A vertical-only split (vertical ratio below 1, horizontal ratio 1 or
    more) first applies [remove_doubles] to all the vertices of the
    mesh.  When the merge has removed the face, the read of its edges
    raises [ReferenceError] and nothing more is done.  Otherwise the
    split does not raise and calls three more operators: the subdivision
    in 2 cuts of the edges of the face, read from the merged mesh, whose
    ends do not share z rounded to 1 place (each once, in the order the
    set yields them), a scale of the new vertices by
    (1, 1, 3 * svertical) about the median of the face, and a
    translation of the new vertices by (0, 0, offz).  The offsets [offx]
    and [offy] are not used. *)
Theorem split_vertical_only `{BMeshOps} `{PySets} (w : World) (face : fid)
        (svertical shorizontal offx offy offz : R) :
  svertical * 3 < 3 -> 1 <= shorizontal ->
  let bm1 := set_face_select (w_bm w) face false in
  let median := calc_center_median bm1 face in
  let bm2 := remove_doubles bm1 (bm_verts bm1) in
  let edges :=
    list_of_set
      (filter (fun e => negb (existsb (fun o => (o =? e)%nat)
                                      (filter (coords_collapse bm2 vz 1) (face_edges bm2 face))))
              (face_edges bm2 face)) in
  let verts :=
    as_verts (filter_geom (geom_inner (snd (subdivide_edges bm2 edges 2))) BMVert) in
  (forall e, In e edges <->
             In e (face_edges bm2 face) /\ coords_collapse bm2 vz 1 e = false) /\
  NoDup edges /\
  if existsb (fun g => (g =? face)%nat) (bm_faces bm2) then
    exists bm',
      split face svertical shorizontal offx offy offz w =
      (Ok (face_with_verts bm' verts None),
       mkWorld bm'
         (w_log w ++ [OpRemoveDoubles (bm_verts bm1);
                      OpSubdivideEdges edges 2;
                      OpScale (mkVector 1 1 (svertical * 3)) (vneg median) verts;
                      OpTranslate (mkVector 0 0 offz) verts]))
  else
    split face svertical shorizontal offx offy offz w =
    (Raise ReferenceError, mkWorld bm2 (w_log w ++ [OpRemoveDoubles (bm_verts bm1)])).
Proof.
  intros V Hz bm1 median bm2 edges verts.
  split; [| split].
  - intros e. subst edges.
    rewrite (Permutation_in' (eq_refl e) (list_of_set_perm _)), nodup_In, filter_In.
    split; intros [I N]; (split; [exact I |]).
    + rewrite (not_among_filter _ _ _ I) in N. now apply negb_true_iff in N.
    + rewrite (not_among_filter _ _ _ I). now apply negb_true_iff.
  - subst edges. eapply Permutation_NoDup.
    + apply Permutation_sym, list_of_set_perm.
    + apply NoDup_nodup.
  - unfold split.
    rewrite (Rlt_bool_true (svertical * 3) 3) by assumption.
    rewrite (Rlt_bool_false (shorizontal * 3) 3) by lra.
    unfold split_offsets, split_vertical, split_after_merge, deref_face, edges_difference,
      op_subdivide_edges, op_remove_doubles, op_scale, op_translate, update_bm, bind,
      get_bm, ret, raise.
    cbn [w_bm w_log negb andb]. fold bm1. fold median. fold bm2.
    destruct (existsb (fun g => (g =? face)%nat) (bm_faces bm2)).
    + cbn [w_bm w_log]. fold edges.
      subst verts. destruct (subdivide_edges bm2 edges 2) as [bm3 res].
      cbn [fst snd w_bm w_log].
      eexists. rewrite app_nil_r, <- !app_assoc. reflexivity.
    + rewrite app_nil_r. reflexivity.
Qed.

Lemma split_vertical_only_witness :
  exists r,
    fst (split (H := idle_ops) (H0 := insertion_order) 0%nat (1 / 2) 1 7 7 0
           (mkWorld unit_quad [])) = Ok r.
Proof.
  destruct (split_vertical_only (H := idle_ops) (H0 := insertion_order)
              (mkWorld unit_quad []) 0%nat (1 / 2) 1 7 7 0) as (_ & _ & bm' & E);
    [lra | lra |].
  rewrite E. eexists. reflexivity.
Defined.

(** ** The failures of [split] *)

(** [split] raises nothing but [AttributeError] and [ReferenceError].
    The first is raised only in a split along both axes: it is the
    failure of the lookup of the face after the merge, whose result
    [None] is then asked for its edges.  The second is raised only in a
    vertical-only split: it is the read of the edges of the face given,
    which the merge has removed. *)
Theorem split_raises_only_attribute_error `{BMeshOps} `{PySets} (w : World) (face : fid)
        (svertical shorizontal offx offy offz : R) (e : PyError) :
  fst (split face svertical shorizontal offx offy offz w) = Raise e ->
  (e = AttributeError /\ svertical * 3 < 3 /\ shorizontal * 3 < 3) \/
  (e = ReferenceError /\ svertical * 3 < 3 /\ ~ shorizontal * 3 < 3).
Proof.
  unfold split, Py.Rlt_bool.
  destruct (Rlt_dec (svertical * 3) 3) as [V | V];
    destruct (Rlt_dec (shorizontal * 3) 3) as [Hz | Hz];
    unfold split_offsets, split_horizontal, split_vertical, split_after_merge,
      op_subdivide_edges, op_remove_doubles, op_scale, op_translate, update_bm, bind,
      get_bm, ret, raise;
    cbn [w_bm w_log negb andb].
  - (* both passes *)
    destruct (subdivide_edges _ _ 2) as [bm2 res]. cbn [fst snd w_bm w_log].
    match goal with
    | |- context [face_with_verts ?b ?v None] =>
        destruct (face_with_verts b v None) as [g |] eqn:F
    end.
    + unfold deref_face. rewrite (face_with_verts_is_face _ _ _ F).
      unfold ret. cbn [fst snd w_bm w_log].
      destruct (subdivide_edges _ _ 2) as [bm4 res']. cbn [fst snd w_bm w_log].
      discriminate.
    + unfold deref_face, raise. cbn [fst]. intros E. injection E as <-. left. auto.
  - (* vertical only *)
    unfold deref_face, ret, raise.
    destruct (existsb _ _).
    + cbn [fst snd w_bm w_log].
      destruct (subdivide_edges _ _ 2) as [bm2 res]. cbn [fst snd w_bm w_log]. discriminate.
    + cbn [fst]. intros E. injection E as <-. right. auto.
  - (* horizontal only *)
    destruct (subdivide_edges _ _ 2) as [bm2 res]. cbn [fst snd w_bm w_log].
    discriminate.
  - (* neither *)
    discriminate.
Qed.

(** On the pinched quad, with a kernel whose merge removes the faces, a
    vertical-only split finds the face it holds dead. *)
Example split_vertical_only_dead_face :
  fst (split (H := purging_ops) (H0 := insertion_order) 0%nat (1 / 2) 1 0 0 0
         (mkWorld pinched_quad [])) =
  Raise ReferenceError.
Proof.
  unfold split.
  rewrite (Rlt_bool_true (1 / 2 * 3) 3) by lra.
  rewrite (Rlt_bool_false (1 * 3) 3) by lra.
  reflexivity.
Qed.

Lemma split_raises_only_attribute_error_witness :
  (ReferenceError = AttributeError /\ 1 / 2 * 3 < 3 /\ 1 * 3 < 3) \/
  (ReferenceError = ReferenceError /\ 1 / 2 * 3 < 3 /\ ~ 1 * 3 < 3).
Proof.
  apply (split_raises_only_attribute_error (H := purging_ops) (H0 := insertion_order)
           (mkWorld pinched_quad []) 0%nat (1 / 2) 1 0 0 0 ReferenceError).
  exact split_vertical_only_dead_face.
Defined.

(** ** The whole run of [split_quad] *)

Lemma subdivide_each_calls `{BMeshOps} (vertical : bool) (cuts : Z) (faces : list fid) :
  forall bm,
    length (snd (subdivide_each vertical cuts faces bm)) = length faces /\
    Forall (fun op => exists edges, op = OpSubdivideEdges edges cuts)
           (snd (subdivide_each vertical cuts faces bm)).
Proof.
  induction faces as [| f faces IH]; intros bm; simpl.
  - split; [reflexivity | constructor].
  - destruct (IH (fst (subdivide_edges bm (swapped_edges bm vertical f) cuts))) as [L F].
    destruct (subdivide_each vertical cuts faces _) as [bm' calls]. simpl in *.
    split; [now rewrite L |]. constructor; [eauto | exact F].
Qed.

Lemma split_quad_loop_result `{BMeshOps} (vertical : bool) (cuts : Z) (faces : list fid) :
  forall (res : option SubdivResult) (w : World),
    exists res',
      split_quad_loop vertical cuts faces res w =
      (Ok res', mkWorld (fst (subdivide_each vertical cuts faces (w_bm w)))
                        (w_log w ++ snd (subdivide_each vertical cuts faces (w_bm w)))) /\
      (res' = None <-> res = None /\ faces = []).
Proof.
  induction faces as [| face rest IH]; intros res w; simpl.
  - exists res. unfold ret. rewrite app_nil_r. split; [now destruct w | tauto].
  - unfold bind. rewrite split_quad_body_run.
    match goal with
    | |- context [split_quad_loop _ _ _ ?r ?w1] => destruct (IH r w1) as [res' [E N]]
    end.
    exists res'. rewrite E. cbn [w_bm w_log].
    destruct (subdivide_each vertical cuts rest _) as [bm' calls]. simpl.
    split; [now rewrite <- app_assoc |].
    split; [intros R; apply N in R; destruct R; discriminate | intros [_ R]; discriminate].
Qed.

(** Whatever the selection, [split_quad] calls [subdivide_edges] once
    for each selected face, each time with [cuts], then updates the edit
    mesh, and calls nothing else.  It fails exactly when no face is
    selected, with [UnboundLocalError], after the update. *)
Theorem split_quad_trace `{BMeshOps} (w : World) (vertical : bool) (cuts : Z) :
  let selected := filter (fun f => face_select (w_bm w) f) (bm_faces (w_bm w)) in
  let run := subdivide_each vertical cuts selected (w_bm w) in
  snd (split_quad vertical cuts w) =
    mkWorld (fst run) (w_log w ++ snd run ++ [OpUpdateEditMesh]) /\
  length (snd run) = length selected /\
  Forall (fun op => exists edges, op = OpSubdivideEdges edges cuts) (snd run) /\
  match fst (split_quad vertical cuts w) with
  | Ok _ => selected <> []
  | Raise e => e = UnboundLocalError /\ selected = []
  end.
Proof.
  intros selected run.
  destruct (subdivide_each_calls vertical cuts selected (w_bm w)) as [L F].
  destruct (split_quad_loop_result vertical cuts selected None w) as [res' [E N]].
  fold run in E.
  assert (Q : split_quad vertical cuts w =
              (match res' with Some r => Ok r | None => Raise UnboundLocalError end,
               mkWorld (fst run) (w_log w ++ snd run ++ [OpUpdateEditMesh]))).
  { unfold split_quad. unfold bind at 1. unfold get_bm at 1. cbn [w_bm]. fold selected.
    unfold bind at 1. rewrite E.
    unfold bind, update_edit_mesh, update_bm. cbn [w_bm w_log].
    rewrite <- app_assoc. destruct res'; reflexivity. }
  rewrite Q. cbn [fst snd].
  split; [reflexivity | split; [exact L | split; [exact F |]]].
  destruct res' as [r |].
  - intros S. assert (R : @None SubdivResult = None /\ selected = []) by auto.
    apply N in R. discriminate.
  - split; [reflexivity | apply N; reflexivity].
Qed.

(** ** The values of [calc_edge_orient] *)

(** [calc_edge_orient] never answers (1, 0, 0) or (0, 1, 0): it answers
    (0, 0, 1) when the two ends share x or share y, rounded to 1 place,
    and (0, 0, 0) otherwise. *)
Theorem calc_edge_orient_never_x_or_y (bm : BMesh) (e : eid) :
  calc_edge_orient bm e <> mkVector 1 0 0 /\
  calc_edge_orient bm e <> mkVector 0 1 0 /\
  (calc_edge_orient bm e = mkVector 0 0 1 <->
   same_rounded bm vx 1 e \/ same_rounded bm vy 1 e) /\
  (calc_edge_orient bm e = mkVector 0 0 0 <->
   ~ same_rounded bm vx 1 e /\ ~ same_rounded bm vy 1 e).
Proof.
  rewrite calc_edge_orient_cases, !coords_collapse_same_rounded.
  rewrite <- !same_roundedb_true_iff.
  assert (D1 : mkVector 0 0 1 <> mkVector 1 0 0) by (intros E; injection E; intros; lra).
  assert (D2 : mkVector 0 0 1 <> mkVector 0 1 0) by (intros E; injection E; intros; lra).
  assert (D3 : mkVector 0 0 0 <> mkVector 1 0 0) by (intros E; injection E; intros; lra).
  assert (D4 : mkVector 0 0 0 <> mkVector 0 1 0) by (intros E; injection E; intros; lra).
  assert (D5 : mkVector 0 0 0 <> mkVector 0 0 1) by (intros E; injection E; intros; lra).
  assert (D6 : mkVector 0 0 1 <> mkVector 0 0 0) by (intros E; injection E; intros; lra).
  destruct (same_roundedb bm vx 1 e); destruct (same_roundedb bm vy 1 e); simpl;
    (split; [assumption | split; [assumption | split; split]]);
    solve [ intros; auto
          | intros; reflexivity
          | intros E; contradiction
          | intros [A | A]; discriminate
          | intros [A B]; exfalso; auto
          | intros; split; discriminate ].
Qed.
